(** * Compendium directory search: index, filter reconciliation, drag payload

    A shallow embedding of [CompendiumDirectoryPF2e]
    (src/module/apps/ui/compendium-directory.ts) and the properties of its
    search index, of [_onSearchFilter] and of [_onDragStart]. *)

From Stdlib Require Import List String Ascii Bool Arith Lia Permutation.
From Stdlib Require Import QArith.
Import ListNotations.

Local Open Scope nat_scope.
Local Open Scope list_scope.
Local Open Scope string_scope.

(** ** JavaScript strings and values *)

(** [String.prototype.includes]: [needle] occurs in [hay] as a substring. *)
Fixpoint includes (hay needle : string) : bool :=
  String.prefix needle hay ||
  match hay with
  | EmptyString => false
  | String _ rest => includes rest needle
  end.

(** A string in a boolean position: [undefined] and the empty string are falsy. *)
Definition truthy (v : option string) : bool :=
  match v with
  | Some s => negb (s =? "")
  | None => false
  end.

(** [a === b] where [a] may be [undefined] and [b] is a string. *)
Definition strictEq (a : option string) (b : string) : bool :=
  match a with
  | Some s => s =? b
  | None => false
  end.

(** A JavaScript text is written here as its UTF-8 bytes. Prefixes,
    substrings and emptiness are the same on the bytes as on the text.
    Lengths are not: [s.length] counts UTF-16 code units. *)

(** The UTF-16 code units a byte stands for: one for a byte that starts a
    character of the Basic Multilingual Plane (sequences of one, two or three
    bytes), two for a byte that starts a sequence of four bytes (a surrogate
    pair), none for a continuation byte. *)
Definition utf16Units (c : ascii) : nat :=
  let n := nat_of_ascii c in
  if (n <? 128)%nat then 1
  else if (n <? 192)%nat then 0
  else if (n <? 240)%nat then 1
  else 2.

(** [s.length] *)
Fixpoint jsLength (s : string) : nat :=
  match s with
  | EmptyString => 0
  | String c rest => utf16Units c + jsLength rest
  end.

(** The characters of a text, as a reader counts them: one for every
    byte that is not a continuation byte. *)
Fixpoint characters (s : string) : nat :=
  match s with
  | EmptyString => 0
  | String c rest =>
      (if ((128 <=? nat_of_ascii c) && (nat_of_ascii c <? 192))%nat then 0 else 1)
      + characters rest
  end.

Definition optionToList {A : Type} (o : option A) : list A :=
  match o with
  | Some a => [a]
  | None => []
  end.

(** ** The host environment

    What the directory takes from its platform: the locale-aware case
    folding of the JavaScript runtime, the tokenizer and ranking function of
    the search engine library, and the localisation helpers. *)

Record Host := {
  (** [s.toLocaleLowerCase(locale)], locale first *)
  toLocaleLowerCase : string -> string -> string;
  (** the engine's tokenizer: a text is split into terms *)
  tokenize : string -> list string;
  (** the engine's relevance of a document for the query terms: indexed
      terms of every document, query terms, terms of the document *)
  relevance : list (list string) -> list string -> list string -> Q;
  (** [Number.prototype.toString] *)
  numberToString : Q -> string;
  (** [game.i18n.localize] *)
  localize : string -> string;
  (** [String.prototype.titleCase] *)
  titleCase : string -> string
}.

(** ** Data model *)

(** [pack.metadata] *)
Module Metadata.
Record t := {
  id : string;
  label : string;
  type : string
}.
End Metadata.

(** An entry of [pack.index] *)
Module IndexEntry.
Record t := {
  _id : string;
  name : string;
  img : option string;
  type : string
}.
End IndexEntry.

(** A [CompendiumCollection] *)
Module Pack.
Record t := {
  collection : string;
  title : string;
  documentName : string;
  private : bool;
  index : list IndexEntry.t;
  metadata : Metadata.t
}.
End Pack.

(** The object [{ ...i, metadata: pack.metadata }] handed to the engine *)
Module Doc.
Record t := {
  _id : string;
  name : string;
  img : option string;
  type : string;
  metadata : Metadata.t
}.
End Doc.

(** A search result: the document id, its score and the stored fields
    [img], [metadata], [name], [type] *)
Module SearchResult.
Record t := {
  id : string;
  score : Q;
  img : option string;
  metadata : Metadata.t;
  name : string;
  type : string
}.
End SearchResult.

(** The ambient [game] object: [game.packs] in insertion order, keyed by
    [collection]; [game.user.isGM]; [game.i18n.lang]. *)
Record Game := {
  packs : list Pack.t;
  isGM : bool;
  lang : string
}.

Inductive Error :=
| DuplicateID (id : string)
| MatchTemplateNotFound
| StrictLookupFailed (key : string).

(** [game.packs.get(key)] *)
Definition getPack (g : Game) (key : string) : option Pack.t :=
  find (fun p => Pack.collection p =? key) (packs g).

(** [pack.index.get(id)] *)
Definition getEntry (p : Pack.t) (id : string) : option IndexEntry.t :=
  find (fun e => IndexEntry._id e =? id) (Pack.index p).

(** ** The search engine

    The directory keeps its index in a MiniSearch engine, a library that
    is not part of this repository. The engine is modelled from what the
    specification says of it (section 4.2), with the options the
    constructor passes. *)

Module MiniSearch.

(** Modelled from the spec: the [combineWith] option of the MiniSearch
    library, all terms or any term. *)
Inductive Combinator := AND | OR.

(** Modelled from the spec: the options of the MiniSearch library that the
    directory sets. The indexed field is [name], the key is [_id], and
    [img], [metadata], [name] and [type] are stored. *)
Record Options := {
  processTerm : string -> option string;
  combineWith : Combinator;
  prefix : bool
}.

(** Modelled from the spec: one indexed document of the MiniSearch library,
    what was stored and the terms of its name. *)
Record Posting := {
  doc : Doc.t;
  terms : list string
}.

(** Modelled from the spec: the index of the MiniSearch library, in
    insertion order. *)
Definition t := list Posting.

(** Modelled from the spec: the engine [new MiniSearch(...)] gives. *)
Definition empty : t := [].

Section Engine.
Variable H : Host.
Variable o : Options.

(** Modelled from the spec: the term pipeline of the MiniSearch library. A
    text is split into terms, each goes through [processTerm], a term
    mapped to [null] is dropped. *)
Definition termsOf (text : string) : list string :=
  flat_map (fun w => optionToList (processTerm o w)) (tokenize H text).

(** Modelled from the spec: [has] of the MiniSearch library, whether an
    identifier is in use. *)
Definition has (ix : t) (id : string) : bool :=
  existsb (fun p => Doc._id (doc p) =? id) ix.

(** Modelled from the spec: the record the MiniSearch library keeps under
    an identifier, if any. *)
Definition stored (ix : t) (id : string) : option Doc.t :=
  option_map doc (find (fun p => Doc._id (doc p) =? id) ix).

(** Modelled from the spec: what the MiniSearch library keeps of a
    document, its stored fields and the terms of its name. *)
Definition posting (d : Doc.t) : Posting :=
  {| doc := d; terms := termsOf (Doc.name d) |}.

(** Modelled from the spec: the identifiers in use in the index of the
    MiniSearch library. *)
Definition ids (ix : t) : list string :=
  map (fun p => Doc._id (doc p)) ix.

(** Modelled from the spec: [add] of the MiniSearch library. A document
    whose identifier is already present is refused with a duplicate-key
    error; otherwise it is stored and its name indexed. *)
Definition add (ix : t) (d : Doc.t) : Error + t :=
  if has ix (Doc._id d) then inl (DuplicateID (Doc._id d))
  else inr (ix ++ [posting d])%list.

(** Modelled from the spec: [addAll] of the MiniSearch library, [add]
    for each document in turn. *)
Fixpoint addAll (ix : t) (ds : list Doc.t) : Error + t :=
  match ds with
  | [] => inr ix
  | d :: rest =>
      match add ix d with
      | inl e => inl e
      | inr ix' => addAll ix' rest
      end
  end.

(** Modelled from the spec: term matching of the MiniSearch library. A
    query term matches a document by one of its indexed terms: one that
    starts with it under [prefix], one equal to it otherwise. *)
Definition termMatches (q : string) (p : Posting) : bool :=
  existsb (fun w => if prefix o then String.prefix q w else q =? w) (terms p).

(** Modelled from the spec: how the MiniSearch library combines the terms
    of a query, all of them under [AND], one of them under [OR]. *)
Definition matches (qs : list string) (p : Posting) : bool :=
  match combineWith o with
  | AND => forallb (fun q => termMatches q p) qs
  | OR => existsb (fun q => termMatches q p) qs
  end.

(** Modelled from the spec: a result of the MiniSearch library, the
    identifier, the score and the stored fields of a document. *)
Definition toResult (ix : t) (qs : list string) (p : Posting) : SearchResult.t :=
  {| SearchResult.id := Doc._id (doc p);
     SearchResult.score := relevance H (map terms ix) qs (terms p);
     SearchResult.img := Doc.img (doc p);
     SearchResult.metadata := Doc.metadata (doc p);
     SearchResult.name := Doc.name (doc p);
     SearchResult.type := Doc.type (doc p) |}.

(** Modelled from the spec: the ranking of the MiniSearch library, by
    decreasing score and, for equal scores, in insertion order. [r] comes
    before the results it is inserted into. *)
Fixpoint insertByScore (r : SearchResult.t) (rs : list SearchResult.t)
  : list SearchResult.t :=
  match rs with
  | [] => [r]
  | r' :: rest =>
      if Qle_bool (SearchResult.score r') (SearchResult.score r)
      then r :: rs
      else r' :: insertByScore r rest
  end.

(** Modelled from the spec: the ranking of the MiniSearch library, a stable
    insertion sort. *)
Definition sortByScore (rs : list SearchResult.t) : list SearchResult.t :=
  fold_right insertByScore [] rs.

(** Modelled from the spec: [search] of the MiniSearch library. A query
    with no term left has no result. *)
Definition search (ix : t) (query : string) : list SearchResult.t :=
  match termsOf query with
  | [] => []
  | qs => sortByScore (map (toResult ix qs) (filter (matches qs) ix))
  end.
End Engine.

End MiniSearch.

(** ** The directory *)

(** The [processTerm] option of the constructor. *)
Definition processTerm (H : Host) (g : Game) (t : string) : option string :=
  if (1 <? jsLength t)%nat then Some (toLocaleLowerCase H (lang g) t) else None.

(** The options of [new MiniSearch(...)] in the constructor. *)
Definition engineOptions (H : Host) (g : Game) : MiniSearch.Options :=
  {| MiniSearch.processTerm := processTerm H g;
     MiniSearch.combineWith := MiniSearch.AND;
     MiniSearch.prefix := true |}.

(** The filter of [#compileSearchIndex]. *)
Definition eligible (g : Game) (p : Pack.t) : bool :=
  (0 <? List.length (Pack.index p))%nat
  && negb (Pack.documentName p =? "JournalEntry")
  && (isGM g || negb (Pack.private p)).

(** [{ ...i, metadata: pack.metadata }] *)
Definition withMetadata (p : Pack.t) (i : IndexEntry.t) : Doc.t :=
  {| Doc._id := IndexEntry._id i;
     Doc.name := IndexEntry.name i;
     Doc.img := IndexEntry.img i;
     Doc.type := IndexEntry.type i;
     Doc.metadata := Pack.metadata p |}.

(** [pack.index.map(...)] *)
Definition contentsOf (p : Pack.t) : list Doc.t :=
  map (withMetadata p) (Pack.index p).

(** The loop of [#compileSearchIndex]: one [addAll] for each pack. *)
Fixpoint addPacks (H : Host) (g : Game) (ix : MiniSearch.t) (ps : list Pack.t)
  : Error + MiniSearch.t :=
  match ps with
  | [] => inr ix
  | p :: rest =>
      match MiniSearch.addAll H (engineOptions H g) ix (contentsOf p) with
      | inl e => inl e
      | inr ix' => addPacks H g ix' rest
      end
  end.

Definition compileSearchIndex (H : Host) (g : Game) (ix : MiniSearch.t)
  : Error + MiniSearch.t :=
  addPacks H g ix (filter (eligible g) (packs g)).

(** The records the extractor hands to the engine, in order. *)
Definition extracted (g : Game) : list Doc.t :=
  flat_map contentsOf (filter (eligible g) (packs g)).

(** The directory: its search engine and the number of handlers in
    [this._dragDrop]. *)
Record Directory := {
  searchEngine : MiniSearch.t;
  dragDrop : nat
}.

(** The constructor: a fresh engine, then [#compileSearchIndex]. *)
Definition construct (H : Host) (g : Game) (handlers : nat) : Error + Directory :=
  match compileSearchIndex H g MiniSearch.empty with
  | inl e => inl e
  | inr ix => inr {| searchEngine := ix; dragDrop := handlers |}
  end.

(** [this.searchEngine.search(query)] *)
Definition searchDocuments (H : Host) (g : Game) (d : Directory) (query : string)
  : list SearchResult.t :=
  MiniSearch.search H (engineOptions H g) (searchEngine d) query.

(** ** The rendered page *)

(** A pack row, [li.compendium-pack]: [dataset.collection],
    [style.display], and how many drag handlers were bound to it. *)
Module Row.
Record t := {
  collection : option string;
  display : string;
  bound : nat
}.
End Row.

(** A match row, the [li] cloned from the match template. *)
Module MatchLi.
Record t := {
  uuid : option string;
  score : option string;
  imgSrc : string;
  anchorText : string;
  detailsText : string;
  (** the uuid the click listener opens *)
  opens : option string
}.
End MatchLi.

(** A type group, [li.compendium-type]: [dataset.type] and the children
    of its [ol.document-matches], when it has one. *)
Module TypeList.
Record t := {
  type : option string;
  documentMatches : option (list MatchLi.t)
}.
End TypeList.

(** The drag preview, [div#pack-search-drag-preview]: the [src] of its
    [img] and the text of its [h4]. *)
Module Preview.
Record t := {
  thumbnailSrc : option string;
  titleText : string
}.
End Preview.

(** What the handlers read and write in the document: the pack rows and
    type groups of the directory element, the content of
    [#compendium-search-match], the previews in the body. A template that
    is there holds the [li] with its [img], [a] and [span], as the
    non-null assertions of [_onSearchFilter] have it. *)
Record Page := {
  packRows : list Row.t;
  typeLists : list TypeList.t;
  matchTemplate : option MatchLi.t;
  dragPreviews : list Preview.t
}.

(** ** [_onSearchFilter] *)

Section SearchFilter.
Variable H : Host.
Variable g : Game.
Variable d : Directory.

Definition caseFold (s : string) : string := toLocaleLowerCase H (lang g) s.

Definition matchesQuery (query : string) (pack : Pack.t) : bool :=
  includes (caseFold (Pack.title pack)) (caseFold query).

Definition filteredPacks (query : string) : list Pack.t :=
  if (0 <? String.length query)%nat
  then filter (matchesQuery query) (packs g)
  else packs g.

Definition isRowOf (pack : Pack.t) (r : Row.t) : bool :=
  strictEq (Row.collection r) (Pack.collection pack).

(** The first element that satisfies [f], replaced by its image. *)
Fixpoint updateFirst {A : Type} (f : A -> bool) (u : A -> A) (l : list A)
  : list A :=
  match l with
  | [] => []
  | x :: rest => if f x then u x :: rest else x :: updateFirst f u rest
  end.

Definition showRow (r : Row.t) : Row.t :=
  {| Row.collection := Row.collection r;
     Row.display := "list-item";
     Row.bound := Row.bound r + dragDrop d |}.

Definition hideRow (r : Row.t) : Row.t :=
  {| Row.collection := Row.collection r;
     Row.display := "none";
     Row.bound := Row.bound r |}.

(** One turn of the loop over [filteredPacks]. *)
Definition showPack (rows : list Row.t) (pack : Pack.t) : list Row.t :=
  match find (isRowOf pack) rows with
  | None => rows
  | Some _ =>
      if Pack.private pack && negb (isGM g) then rows
      else updateFirst (isRowOf pack) showRow rows
  end.

(** [filteredPacks.includes(pack)]: the packs of [game.packs] are told
    apart by their key. *)
Definition includesPack (ps : list Pack.t) (pack : option Pack.t) : bool :=
  match pack with
  | Some p => existsb (fun p' => Pack.collection p' =? Pack.collection p) ps
  | None => false
  end.

Definition isRowToHide (query : string) (r : Row.t) : bool :=
  negb (includesPack (filteredPacks query)
          (getPack g (match Row.collection r with Some c => c | None => "" end))).

Definition hideRest (query : string) (rows : list Row.t) : list Row.t :=
  if (0 <? String.length query)%nat
  then map (fun r => if isRowToHide query r then hideRow r else r) rows
  else rows.

(** The container pass: show the rows of the filtered packs, hide the rest. *)
Definition containerPass (query : string) (rows : list Row.t) : list Row.t :=
  hideRest query (fold_left showPack (filteredPacks query) rows).

(** The document pass. *)
Definition docMatches (query : string) : list SearchResult.t :=
  if (0 <? String.length query)%nat then searchDocuments H g d query else [].

Definition matchUUID (m : SearchResult.t) : string :=
  "Compendium." ++ Metadata.id (SearchResult.metadata m) ++ "." ++ SearchResult.id m.

Definition systemType (m : SearchResult.t) : option string :=
  if Metadata.type (SearchResult.metadata m) =? "Actor"
  then Some (localize H ("ACTOR.Type" ++ titleCase H (SearchResult.type m)))
  else if Metadata.type (SearchResult.metadata m) =? "Item"
  then Some (localize H ("ITEM.Type" ++ titleCase H (SearchResult.type m)))
  else None.

Definition matchElement (template : MatchLi.t) (m : SearchResult.t) : MatchLi.t :=
  {| MatchLi.uuid := Some (matchUUID m);
     MatchLi.score := Some (numberToString H (SearchResult.score m));
     MatchLi.imgSrc :=
       match SearchResult.img m with
       | Some src => src
       | None => MatchLi.imgSrc template
       end;
     MatchLi.anchorText := SearchResult.name m;
     MatchLi.detailsText :=
       match systemType m with
       | Some st =>
           if st =? "" then "(" ++ Metadata.label (SearchResult.metadata m) ++ ")"
           else st ++ " (" ++ Metadata.label (SearchResult.metadata m) ++ ")"
       | None => "(" ++ Metadata.label (SearchResult.metadata m) ++ ")"
       end;
     MatchLi.opens := Some (matchUUID m) |}.

Definition typedMatches (ms : list SearchResult.t) (tl : TypeList.t)
  : list SearchResult.t :=
  filter (fun m => strictEq (TypeList.type tl)
                     (Metadata.type (SearchResult.metadata m))) ms.

(** One turn of the loop over the type groups. *)
Definition renderMatches (template : MatchLi.t) (ms : list SearchResult.t)
    (tl : TypeList.t) : TypeList.t :=
  {| TypeList.type := TypeList.type tl;
     TypeList.documentMatches :=
       match TypeList.documentMatches tl with
       | Some _ => Some (map (matchElement template) (typedMatches ms tl))
       | None => None
       end |}.

Definition withRows (page : Page) (rows : list Row.t) : Page :=
  {| packRows := rows;
     typeLists := typeLists page;
     matchTemplate := matchTemplate page;
     dragPreviews := dragPreviews page |}.

Definition withTypeLists (page : Page) (tls : list TypeList.t) : Page :=
  {| packRows := packRows page;
     typeLists := tls;
     matchTemplate := matchTemplate page;
     dragPreviews := dragPreviews page |}.

(** The handler: the page it leaves, and the error it throws, if any. *)
Definition _onSearchFilter (page : Page) (query : string) : Page * option Error :=
  let page1 := withRows page (containerPass query (packRows page)) in
  match docMatches query with
  | [] => (page1, None)
  | ms =>
      match matchTemplate page1 with
      | None => (page1, Some MatchTemplateNotFound)
      | Some template =>
          (withTypeLists page1 (map (renderMatches template ms) (typeLists page1)),
           None)
      end
  end.
End SearchFilter.

(** ** [_onDragStart] *)

(** The object given to [JSON.stringify]. *)
Module DragData.
Record t := {
  type : string;
  uuid : string
}.
End DragData.

(** [event.dataTransfer]: the drag image with its offsets, the data by format. *)
Module DataTransfer.
Record t := {
  dragImage : option (Preview.t * nat * nat);
  data : list (string * DragData.t)
}.

Definition setDragImage (dt : t) (p : Preview.t) (x y : nat) : t :=
  {| dragImage := Some (p, x, y); data := data dt |}.

Definition setData (dt : t) (format : string) (v : DragData.t) : t :=
  {| dragImage := dragImage dt;
     data := (filter (fun e => negb (fst e =? format)) (data dt) ++ [(format, v)])%list |}.

Definition getData (dt : t) (format : string) : option DragData.t :=
  option_map snd (find (fun e => fst e =? format) (data dt)).
End DataTransfer.

(** The drag event: the dataset of [event.currentTarget] and the transfer. *)
Module DragEvent.
Record t := {
  collection : option string;
  documentId : option string;
  dataTransfer : DataTransfer.t
}.
End DragEvent.

(** The getter [#dragPreview]: an [img] with no source and an empty [h4]. *)
Definition dragPreview : Preview.t :=
  {| Preview.thumbnailSrc := None; Preview.titleText := "" |}.

Definition withPreviews (page : Page) (ps : list Preview.t) : Page :=
  {| packRows := packRows page;
     typeLists := typeLists page;
     matchTemplate := matchTemplate page;
     dragPreviews := ps |}.

(** The handler: the page and transfer it leaves, and the error it throws,
    if any. *)
Definition _onDragStart (g : Game) (page : Page) (event : DragEvent.t)
  : Page * DataTransfer.t * option Error :=
  let transfer := DragEvent.dataTransfer event in
  if negb (truthy (DragEvent.collection event) && truthy (DragEvent.documentId event))
  then (page, transfer, None)
  else
    match DragEvent.collection event, DragEvent.documentId event with
    | Some collection, Some documentId =>
        match getPack g collection with
        | None => (page, transfer, Some (StrictLookupFailed collection))
        | Some pack =>
            match getEntry pack documentId with
            | None => (page, transfer, Some (StrictLookupFailed documentId))
            | Some indexEntry =>
                let preview :=
                  {| Preview.thumbnailSrc :=
                       if truthy (IndexEntry.img indexEntry)
                       then IndexEntry.img indexEntry
                       else Preview.thumbnailSrc dragPreview;
                     Preview.titleText := IndexEntry.name indexEntry |} in
                let page' :=
                  withPreviews page (List.tl (dragPreviews page) ++ [preview])%list in
                let transfer' :=
                  DataTransfer.setData
                    (DataTransfer.setDragImage transfer preview 75 25)
                    "text/plain"
                    {| DragData.type := Pack.documentName pack;
                       DragData.uuid :=
                         "Compendium." ++ Pack.collection pack ++ "." ++ documentId |} in
                (page', transfer', None)
            end
        end
    | _, _ => (page, transfer, None)
    end.

(** ** A concrete host and the scenarios

    An ASCII host: case folding of the letters A to Z, terms separated by
    spaces and ASCII punctuation, every score 1, no translation. *)

Definition lowerAscii (c : ascii) : ascii :=
  let n := nat_of_ascii c in
  if ((65 <=? n) && (n <=? 90))%nat then ascii_of_nat (n + 32) else c.

Fixpoint lowerString (s : string) : string :=
  match s with
  | EmptyString => EmptyString
  | String c rest => String (lowerAscii c) (lowerString rest)
  end.

Definition isSeparator (c : ascii) : bool :=
  let n := nat_of_ascii c in
  ((n <=? 32) || ((33 <=? n) && (n <=? 47)) || ((58 <=? n) && (n <=? 64))
   || ((91 <=? n) && (n <=? 96)) || ((123 <=? n) && (n <=? 126)))%nat.

(** [text.split(separators)]: [cur] is the term being read. *)
Fixpoint splitTerms (cur : string) (s : string) : list string :=
  match s with
  | EmptyString => [cur]
  | String c rest =>
      if isSeparator c then cur :: splitTerms EmptyString rest
      else splitTerms (cur ++ String c EmptyString) rest
  end.

Definition exampleHost : Host :=
  {| toLocaleLowerCase := fun _ s => lowerString s;
     tokenize := splitTerms EmptyString;
     relevance := fun _ _ _ => 1%Q;
     numberToString := fun _ => "1";
     localize := fun key => key;
     titleCase := fun s => s |}.

(** The pack of the scenarios: "Bestiary", of type "Actor", with the entry
    "Goblin Warrior". *)
Definition bestiary (collection : string) : Pack.t :=
  {| Pack.collection := collection;
     Pack.title := "Bestiary";
     Pack.documentName := "Actor";
     Pack.private := false;
     Pack.index :=
       [ {| IndexEntry._id := "e1";
            IndexEntry.name := "Goblin Warrior";
            IndexEntry.img := None;
            IndexEntry.type := "npc" |} ];
     Pack.metadata :=
       {| Metadata.id := collection;
          Metadata.label := "Bestiary";
          Metadata.type := "Actor" |} |}.

Definition exampleGame (collection : string) (gm : bool) : Game :=
  {| packs := [bestiary collection]; isGM := gm; lang := "en" |}.

Definition exampleTemplate : MatchLi.t :=
  {| MatchLi.uuid := None;
     MatchLi.score := None;
     MatchLi.imgSrc := "";
     MatchLi.anchorText := "";
     MatchLi.detailsText := "";
     MatchLi.opens := None |}.

(** A page with the row of one pack and the group of the actor packs. *)
Definition examplePage (collection display : string) (template : option MatchLi.t)
  : Page :=
  {| packRows :=
       [ {| Row.collection := Some collection; Row.display := display; Row.bound := 0 |} ];
     typeLists :=
       [ {| TypeList.type := Some "Actor"; TypeList.documentMatches := Some [] |} ];
     matchTemplate := template;
     dragPreviews := [] |}.

Definition emptyTransfer : DataTransfer.t :=
  {| DataTransfer.dragImage := None; DataTransfer.data := [] |}.

(** Two one-character texts that are not ASCII: the letter l with stroke,
    U+0142, two bytes and one UTF-16 code unit; the grinning face, U+1F600,
    four bytes and two UTF-16 code units. *)
Definition lWithStroke : string :=
  String (ascii_of_nat 197) (String (ascii_of_nat 130) EmptyString).

Definition grinningFace : string :=
  String (ascii_of_nat 240)
    (String (ascii_of_nat 159)
       (String (ascii_of_nat 152) (String (ascii_of_nat 128) EmptyString))).

(** Two packs whose entries share the identifier "e1". *)
Definition collidingGame : Game :=
  {| packs := [bestiary "p1"; bestiary "p2"]; isGM := false; lang := "en" |}.

(** The directory a game gives, when its construction succeeds. *)
Definition directoryOf (H : Host) (g : Game) (handlers : nat) : Directory :=
  match construct H g handlers with
  | inr d => d
  | inl _ => {| searchEngine := MiniSearch.empty; dragDrop := handlers |}
  end.

(** The record, the directory and the match of the "gob" scenario. *)
Definition scenarioDoc : Doc.t :=
  {| Doc._id := "e1";
     Doc.name := "Goblin Warrior";
     Doc.img := None;
     Doc.type := "npc";
     Doc.metadata := Pack.metadata (bestiary "p1") |}.

Definition scenarioDirectory (handlers : nat) : Directory :=
  {| searchEngine :=
       [ {| MiniSearch.doc := scenarioDoc;
            MiniSearch.terms := ["goblin"; "warrior"] |} ];
     dragDrop := handlers |}.

Definition scenarioMatch (H : Host) : SearchResult.t :=
  {| SearchResult.id := "e1";
     SearchResult.score :=
       relevance H [["goblin"; "warrior"]] ["gob"] ["goblin"; "warrior"];
     SearchResult.img := None;
     SearchResult.metadata := Pack.metadata (bestiary "p1");
     SearchResult.name := "Goblin Warrior";
     SearchResult.type := "npc" |}.

(** A private pack whose title and whose entry both match "goblin". *)
Definition vault : Pack.t :=
  {| Pack.collection := "p2";
     Pack.title := "Goblin Vault";
     Pack.documentName := "Actor";
     Pack.private := true;
     Pack.index :=
       [ {| IndexEntry._id := "e2";
            IndexEntry.name := "Goblin King";
            IndexEntry.img := None;
            IndexEntry.type := "npc" |} ];
     Pack.metadata :=
       {| Metadata.id := "p2";
          Metadata.label := "Goblin Vault";
          Metadata.type := "Actor" |} |}.

Definition privateGame : Game :=
  {| packs := [bestiary "p1"; vault]; isGM := false; lang := "en" |}.

Definition privatePage : Page :=
  {| packRows :=
       [ {| Row.collection := Some "p1"; Row.display := "list-item"; Row.bound := 0 |};
         {| Row.collection := Some "p2"; Row.display := "none"; Row.bound := 0 |} ];
     typeLists :=
       [ {| TypeList.type := Some "Actor"; TypeList.documentMatches := Some [] |} ];
     matchTemplate := Some exampleTemplate;
     dragPreviews := [] |}.

(** A page on which a preview of an earlier drag is left. *)
Definition pageWithPreview : Page :=
  {| packRows := [];
     typeLists := [];
     matchTemplate := None;
     dragPreviews :=
       [ {| Preview.thumbnailSrc := None; Preview.titleText := "Goblin Warrior" |} ] |}.

(** A drag from the row of "e1" in the pack "world.bestiary". *)
Definition exampleDrag : DragEvent.t :=
  {| DragEvent.collection := Some "world.bestiary";
     DragEvent.documentId := Some "e1";
     DragEvent.dataTransfer := emptyTransfer |}.

(** ** Relations between the rows before and after a pass *)

(** [r'] is [r], or [r] shown as the row of a pack of [ps] that the viewer
    may see. *)
Definition shownBy (g : Game) (ps : list Pack.t) (r r' : Row.t) : Prop :=
  Row.collection r' = Row.collection r
  /\ (r' = r
      \/ (Row.display r' = "list-item"
          /\ exists pack, In pack ps /\ isRowOf pack r = true
                          /\ Pack.private pack && negb (isGM g) = false)).

(** [r'] is [r], or [r] hidden. *)
Definition hiddenOrKept (r r' : Row.t) : Prop :=
  r' = r \/ r' = hideRow r.

(** The viewer may see the pack. *)
Definition permitted (g : Game) (p : Pack.t) : Prop :=
  isGM g = true \/ Pack.private p = false.

(** ** The context menu of a match: [_contextMenu]

    The entry "COMPENDIUM.ImportEntry" of the menu on [ol.doc-matches > li]. *)

(** The call [worldCollection.importFromCompendium(packCollection,
    documentId, {}, { renderSheet: true })]. *)
Module ImportRequest.
Record t := {
  world : string;
  pack : Pack.t;
  documentId : string;
  renderSheet : bool
}.
End ImportRequest.

(** [game.collections.get(name)]: the world collections, by document name. *)
Definition getWorldCollection (worlds : list string) (name : string)
  : option string :=
  find (fun w => w =? name) worlds.

(** The [condition] of the entry: [dataset?.collection ?? ""] is looked up
    strictly, then the document class of the pack is asked whether the
    user may create. *)
Definition importCondition (g : Game) (canUserCreate : Pack.t -> bool)
    (collection : option string) : Error + bool :=
  let key := match collection with Some c => c | None => "" end in
  match getPack g key with
  | None => inl (StrictLookupFailed key)
  | Some pack => inr (canUserCreate pack)
  end.

(** The [callback] of the entry: the import it asks for, if any. *)
Definition importCallback (g : Game) (worlds : list string)
    (collection documentId : option string) : Error + option ImportRequest.t :=
  if negb (truthy collection && truthy documentId) then inr None
  else
    match collection, documentId with
    | Some c, Some i =>
        match getPack g c with
        | None => inl (StrictLookupFailed c)
        | Some packCollection =>
            match getWorldCollection worlds (Pack.documentName packCollection) with
            | None => inl (StrictLookupFailed (Pack.documentName packCollection))
            | Some worldCollection =>
                inr (Some {| ImportRequest.world := worldCollection;
                             ImportRequest.pack := packCollection;
                             ImportRequest.documentId := i;
                             ImportRequest.renderSheet := true |})
            end
        end
    | _, _ => inr None
    end.

(** ** The container pass, row by row *)

(** [r.dataset.collection ?? ""] *)
Definition rowKey (r : Row.t) : string :=
  match Row.collection r with
  | Some c => c
  | None => ""
  end.

(** A pack of [ps] has the key [c] and may be seen by the viewer. *)
Definition showable (g : Game) (ps : list Pack.t) (c : string) : bool :=
  existsb (fun p => (Pack.collection p =? c)
                    && negb (Pack.private p && negb (isGM g))) ps.

(** One pass over the rows, left to right: the first row of each collection
    id that is showable is shown. [seen] holds the ids met so far. *)
Fixpoint showFirstRows (g : Game) (d : Directory) (ps : list Pack.t)
    (seen : list string) (rows : list Row.t) : list Row.t :=
  match rows with
  | [] => []
  | r :: rest =>
      match Row.collection r with
      | Some c =>
          (if showable g ps c && negb (existsb (String.eqb c) seen)
           then showRow d r else r)
          :: showFirstRows g d ps (c :: seen) rest
      | None => r :: showFirstRows g d ps seen rest
      end
  end.

(** Whether the rows with the collection id [oc] are hidden by the query. *)
Definition toHide (H : Host) (g : Game) (query : string) (oc : option string)
  : bool :=
  (0 <? String.length query)%nat
  && negb (includesPack (filteredPacks H g query)
             (getPack g (match oc with Some c => c | None => "" end))).

(** A row, hidden if its collection id says so. *)
Definition hideIf (hide : option string -> bool) (r : Row.t) : Row.t :=
  if hide (Row.collection r) then hideRow r else r.

(** Two rows look the same: same collection id, same display. *)
Definition sameLook (r r' : Row.t) : Prop :=
  Row.collection r' = Row.collection r /\ Row.display r' = Row.display r.

(** A second private pack and a journal, for the examples. *)
Definition journal : Pack.t :=
  {| Pack.collection := "p3";
     Pack.title := "Goblin Lore";
     Pack.documentName := "JournalEntry";
     Pack.private := false;
     Pack.index :=
       [ {| IndexEntry._id := "e3";
            IndexEntry.name := "Goblin History";
            IndexEntry.img := None;
            IndexEntry.type := "base" |} ];
     Pack.metadata :=
       {| Metadata.id := "p3";
          Metadata.label := "Goblin Lore";
          Metadata.type := "JournalEntry" |} |}.

Definition journalGame : Game :=
  {| packs := [bestiary "p1"; journal]; isGM := true; lang := "en" |}.

Definition threeRows : list Row.t :=
  [ {| Row.collection := Some "p1"; Row.display := "none"; Row.bound := 0 |};
    {| Row.collection := Some "p2"; Row.display := "none"; Row.bound := 0 |};
    {| Row.collection := Some "gone"; Row.display := "list-item"; Row.bound := 0 |} ].

(** * Properties *)

(** ** Lists *)

(** ** The engine *)

Section EngineFacts.
Variable H : Host.
Variable o : MiniSearch.Options.

Abbreviation index1 := (MiniSearch.posting H o).
Abbreviation ids := MiniSearch.ids.

Lemma has_In (ix : MiniSearch.t) (id : string) :
  MiniSearch.has ix id = true <-> In id (ids ix).
Proof.
  unfold MiniSearch.has, MiniSearch.ids.
  induction ix as [| p ix IH]; simpl.
  - split; [discriminate | tauto].
  - rewrite orb_true_iff, IH, String.eqb_eq. tauto.
Qed.

Lemma add_fresh (ix : MiniSearch.t) (d : Doc.t) :
  ~ In (Doc._id d) (ids ix) ->
  MiniSearch.add H o ix d = inr (ix ++ [index1 d])%list.
Proof.
  intros Hfresh. unfold MiniSearch.add.
  destruct (MiniSearch.has ix (Doc._id d)) eqn:E; [| reflexivity].
  apply has_In in E. contradiction.
Qed.

Lemma add_duplicate (ix : MiniSearch.t) (d : Doc.t) :
  In (Doc._id d) (ids ix) ->
  MiniSearch.add H o ix d = inl (DuplicateID (Doc._id d)).
Proof.
  intros Hdup. unfold MiniSearch.add.
  apply has_In in Hdup. now rewrite Hdup.
Qed.

Lemma ids_app (ix ix' : MiniSearch.t) :
  ids (ix ++ ix')%list = (ids ix ++ ids ix')%list.
Proof. apply map_app. Qed.

(** Distinct identifiers: every document is added, in order. *)
Lemma addAll_distinct (ds : list Doc.t) : forall ix,
  NoDup (ids ix ++ map Doc._id ds)%list ->
  MiniSearch.addAll H o ix ds = inr (ix ++ map index1 ds)%list.
Proof.
  induction ds as [| d ds IH]; intros ix Hnd; simpl.
  - now rewrite app_nil_r.
  - rewrite add_fresh.
    + rewrite IH.
      * now rewrite <- app_assoc.
      * rewrite ids_app. simpl. rewrite <- app_assoc. exact Hnd.
    + apply NoDup_remove_2 in Hnd. intros Hin. apply Hnd.
      apply in_or_app. now left.
Qed.

(** A colliding identifier: the build fails on it. *)
Lemma addAll_collision (ds : list Doc.t) : forall ix,
  NoDup (ids ix) ->
  ~ NoDup (ids ix ++ map Doc._id ds)%list ->
  exists id, MiniSearch.addAll H o ix ds = inl (DuplicateID id)
             /\ In id (map Doc._id ds).
Proof.
  induction ds as [| d ds IH]; intros ix Hix Hdup; simpl.
  - rewrite app_nil_r in Hdup. contradiction.
  - destruct (in_dec string_dec (Doc._id d) (ids ix)) as [Hin | Hout].
    + exists (Doc._id d). rewrite add_duplicate by assumption. simpl. auto.
    + rewrite add_fresh by assumption.
      assert (Hix' : NoDup (ids (ix ++ [index1 d])%list)).
      { rewrite ids_app. simpl. apply NoDup_app; auto.
        - repeat constructor. intros [].
        - intros x Hx [Hy | []]. subst x. contradiction. }
      destruct (IH (ix ++ [index1 d])%list Hix') as [id [Hfail Hid]].
      * rewrite ids_app. simpl. rewrite <- app_assoc. exact Hdup.
      * exists id. split; [exact Hfail | now right].
Qed.

Lemma addAll_app (ds ds' : list Doc.t) : forall ix,
  MiniSearch.addAll H o ix (ds ++ ds')%list =
  match MiniSearch.addAll H o ix ds with
  | inl e => inl e
  | inr ix' => MiniSearch.addAll H o ix' ds'
  end.
Proof.
  induction ds as [| d ds IH]; intros ix; simpl; [reflexivity |].
  destruct (MiniSearch.add H o ix d); [reflexivity | apply IH].
Qed.

(** A build that succeeds added every document, in order. *)
Lemma addAll_inr (ds : list Doc.t) : forall ix ix',
  MiniSearch.addAll H o ix ds = inr ix' ->
  ix' = (ix ++ map index1 ds)%list.
Proof.
  induction ds as [| d ds IH]; intros ix ix' Hok; simpl in *.
  - inversion Hok. now rewrite app_nil_r.
  - unfold MiniSearch.add in Hok.
    destruct (MiniSearch.has ix (Doc._id d)); [discriminate |].
    apply IH in Hok. rewrite Hok, <- app_assoc. reflexivity.
Qed.

(** A build that succeeds met no identifier twice. *)
Lemma addAll_inr_NoDup (ds : list Doc.t) (ix ix' : MiniSearch.t) :
  NoDup (ids ix) ->
  MiniSearch.addAll H o ix ds = inr ix' ->
  NoDup (ids ix ++ map Doc._id ds)%list.
Proof.
  intros Hix Hok.
  destruct (ListDec.NoDup_dec string_dec (ids ix ++ map Doc._id ds))
    as [Hnd | Hdup]; [exact Hnd |].
  destruct (addAll_collision ds ix Hix Hdup) as [id [Hfail _]].
  rewrite Hfail in Hok. discriminate.
Qed.

(** The only error of a build is the duplicate key. *)
Lemma addAll_inl (ds : list Doc.t) : forall ix e,
  MiniSearch.addAll H o ix ds = inl e ->
  exists id, e = DuplicateID id /\ In id (map Doc._id ds).
Proof.
  induction ds as [| d ds IH]; intros ix e Hfail; simpl in *; [discriminate |].
  unfold MiniSearch.add in Hfail.
  destruct (MiniSearch.has ix (Doc._id d)).
  - inversion Hfail. eauto.
  - destruct (IH _ _ Hfail) as [id [He Hin]]. eauto.
Qed.

Lemma stored_index1 (ds : list Doc.t) (d : Doc.t) :
  NoDup (map Doc._id ds) -> In d ds ->
  MiniSearch.stored (map index1 ds) (Doc._id d) = Some d.
Proof.
  unfold MiniSearch.stored.
  induction ds as [| d' ds IH]; intros Hnd Hin; simpl in *; [contradiction |].
  inversion Hnd as [| ? ? Hout Hnd']; subst.
  destruct Hin as [-> | Hin].
  - now rewrite String.eqb_refl.
  - destruct (String.eqb_spec (Doc._id d') (Doc._id d)) as [Heq | Hne].
    + exfalso. apply Hout. rewrite Heq. now apply in_map.
    + now apply IH.
Qed.

(** ** Search results *)

Lemma insertByScore_In (r x : SearchResult.t) (rs : list SearchResult.t) :
  In x (MiniSearch.insertByScore r rs) <-> x = r \/ In x rs.
Proof.
  induction rs as [| r' rs IH]; simpl.
  - intuition congruence.
  - destruct (Qle_bool _ _); simpl; [intuition congruence |].
    rewrite IH. intuition congruence.
Qed.

Lemma sortByScore_In (x : SearchResult.t) (rs : list SearchResult.t) :
  In x (MiniSearch.sortByScore rs) <-> In x rs.
Proof.
  induction rs as [| r rs IH]; simpl; [tauto |].
  rewrite insertByScore_In, IH. intuition congruence.
Qed.

(** A result is a document of the index that matches the query terms. *)
Lemma search_In (ix : MiniSearch.t) (query : string) (m : SearchResult.t) :
  In m (MiniSearch.search H o ix query) <->
  MiniSearch.termsOf H o query <> []
  /\ exists p, In p ix
               /\ MiniSearch.matches o (MiniSearch.termsOf H o query) p = true
               /\ m = MiniSearch.toResult H ix (MiniSearch.termsOf H o query) p.
Proof.
  unfold MiniSearch.search.
  destruct (MiniSearch.termsOf H o query) as [| q qs] eqn:E.
  - simpl. split; [contradiction | intros [Hne _]; congruence].
  - rewrite sortByScore_In, in_map_iff. split.
    + intros [p [Hm Hp]]. apply filter_In in Hp. destruct Hp as [Hin Hmatch].
      split; [discriminate |]. exists p. auto.
    + intros [_ [p [Hin [Hmatch Hm]]]]. exists p. split; [auto |].
      apply filter_In. auto.
Qed.
End EngineFacts.

(** ** Terms *)

Section TermFacts.
Variable H : Host.
Variable g : Game.

Lemma processTerm_short (t : string) :
  jsLength t < 2 -> processTerm H g t = None.
Proof.
  intros Hlen. unfold processTerm.
  destruct (Nat.ltb_spec 1 (jsLength t)); [lia | reflexivity].
Qed.

Lemma processTerm_long (t : string) :
  2 <= jsLength t ->
  processTerm H g t = Some (toLocaleLowerCase H (lang g) t).
Proof.
  intros Hlen. unfold processTerm.
  destruct (Nat.ltb_spec 1 (jsLength t)); [reflexivity | lia].
Qed.

(** The terms of a text: its tokens whose [length] is two or more, case-folded. *)
Lemma termsOf_filter (text : string) :
  MiniSearch.termsOf H (engineOptions H g) text =
  map (toLocaleLowerCase H (lang g))
      (filter (fun w => (1 <? jsLength w)%nat) (tokenize H text)).
Proof.
  unfold MiniSearch.termsOf. simpl.
  induction (tokenize H text) as [| w ws IH]; simpl; [reflexivity |].
  unfold processTerm at 1.
  destruct (1 <? jsLength w)%nat; simpl; now rewrite IH.
Qed.

Lemma termsOf_In (text t : string) :
  In t (MiniSearch.termsOf H (engineOptions H g) text) <->
  exists w, In w (tokenize H text) /\ 2 <= jsLength w
            /\ t = toLocaleLowerCase H (lang g) w.
Proof.
  rewrite termsOf_filter, in_map_iff. split.
  - intros [w [Ht Hw]]. apply filter_In in Hw. destruct Hw as [Hin Hlen].
    apply Nat.ltb_lt in Hlen. exists w. auto.
  - intros [w [Hin [Hlen Ht]]]. exists w. split; [auto |].
    apply filter_In. split; [assumption |]. apply Nat.ltb_lt. lia.
Qed.
End TermFacts.

(** ** Compiling the index *)

Section CompileFacts.
Variable H : Host.
Variable g : Game.

Lemma addPacks_addAll (ps : list Pack.t) : forall ix,
  addPacks H g ix ps =
  MiniSearch.addAll H (engineOptions H g) ix (flat_map contentsOf ps).
Proof.
  induction ps as [| p ps IH]; intros ix; simpl; [reflexivity |].
  rewrite addAll_app.
  destruct (MiniSearch.addAll H (engineOptions H g) ix (contentsOf p));
    [reflexivity | apply IH].
Qed.

Lemma compileSearchIndex_addAll (ix : MiniSearch.t) :
  compileSearchIndex H g ix =
  MiniSearch.addAll H (engineOptions H g) ix (extracted g).
Proof. apply addPacks_addAll. Qed.

Lemma eligible_iff (p : Pack.t) :
  eligible g p = true <->
  Pack.index p <> [] /\ Pack.documentName p <> "JournalEntry"
  /\ (isGM g = true \/ Pack.private p = false).
Proof.
  unfold eligible.
  rewrite !andb_true_iff, orb_true_iff, !negb_true_iff, String.eqb_neq, Nat.ltb_lt.
  destruct (Pack.index p); simpl; split; intros [H1 H2]; repeat split;
    try tauto; try lia; try discriminate.
Qed.

Lemma extracted_In (r : Doc.t) :
  In r (extracted g) <->
  exists p i, In p (packs g) /\ eligible g p = true
              /\ In i (Pack.index p) /\ r = withMetadata p i.
Proof.
  unfold extracted, contentsOf. rewrite in_flat_map. split.
  - intros [p [Hp Hr]]. apply filter_In in Hp. apply in_map_iff in Hr.
    destruct Hp as [Hp He], Hr as [i [Hr Hi]]. exists p, i. auto.
  - intros [p [i [Hp [He [Hi Hr]]]]]. exists p. split.
    + apply filter_In. auto.
    + apply in_map_iff. exists i. auto.
Qed.

(** A directory that was constructed holds the extracted records, each
    indexed by the terms of its name. *)
Lemma construct_inr (n : nat) (d : Directory) :
  construct H g n = inr d ->
  searchEngine d = map (MiniSearch.posting H (engineOptions H g)) (extracted g)
  /\ dragDrop d = n.
Proof.
  unfold construct. rewrite compileSearchIndex_addAll.
  destruct (MiniSearch.addAll H (engineOptions H g) MiniSearch.empty (extracted g))
    as [e | ix] eqn:E; [discriminate |].
  intros Hd. inversion Hd; subst; simpl. apply addAll_inr in E. auto.
Qed.

Lemma construct_docs (n : nat) (d : Directory) :
  construct H g n = inr d ->
  map MiniSearch.doc (searchEngine d) = extracted g.
Proof.
  intros Hd. apply construct_inr in Hd. destruct Hd as [-> _].
  rewrite map_map. simpl. apply map_id.
Qed.
End CompileFacts.

(** ** The container pass *)

Lemma Forall2_compose {A : Type} (R S T : A -> A -> Prop) :
  (forall x y z, R x y -> S y z -> T x z) ->
  forall l1 l2 l3, Forall2 R l1 l2 -> Forall2 S l2 l3 -> Forall2 T l1 l3.
Proof.
  intros HT l1 l2 l3 H12. revert l3.
  induction H12 as [| x y l1 l2 Hxy _ IH]; intros l3 H23; inversion H23; subst.
  - constructor.
  - constructor; eauto.
Qed.

Lemma Forall2_refl_on {A : Type} (R : A -> A -> Prop) :
  (forall x, R x x) -> forall l, Forall2 R l l.
Proof. intros HR l. induction l; constructor; auto. Qed.

Lemma NoDup_map_inj {A B : Type} (f : A -> B) (l : list A) (x y : A) :
  NoDup (map f l) -> In x l -> In y l -> f x = f y -> x = y.
Proof.
  induction l as [| a l IH]; simpl; intros Hnd Hx Hy Heq; [contradiction |].
  inversion Hnd as [| ? ? Hout Hnd']; subst.
  destruct Hx as [-> | Hx], Hy as [-> | Hy]; auto.
  - exfalso. apply Hout. rewrite Heq. now apply in_map.
  - exfalso. apply Hout. rewrite <- Heq. now apply in_map.
Qed.

Lemma updateFirst_Forall2 {A : Type} (f : A -> bool) (u : A -> A) (l : list A) :
  Forall2 (fun x y => y = x \/ (f x = true /\ y = u x)) l (updateFirst f u l).
Proof.
  induction l as [| a l IH]; simpl; [constructor |].
  destruct (f a) eqn:E.
  - constructor; [auto |]. apply Forall2_refl_on. auto.
  - constructor; auto.
Qed.

Lemma find_updateFirst {A : Type} (f f' : A -> bool) (u : A -> A) :
  (forall x, f (u x) = f x) ->
  forall l x, find f l = Some x ->
  exists y, find f (updateFirst f' u l) = Some y /\ (y = x \/ y = u x).
Proof.
  intros Hu l. induction l as [| a l IH]; simpl; intros x Hx; [discriminate |].
  destruct (f' a) eqn:E'; simpl; rewrite ?Hu; destruct (f a) eqn:E; eauto.
  inversion Hx; subst. eauto.
Qed.

Lemma find_updateFirst_same {A : Type} (f : A -> bool) (u : A -> A) :
  (forall x, f (u x) = f x) ->
  forall l x, find f l = Some x -> find f (updateFirst f u l) = Some (u x).
Proof.
  intros Hu l. induction l as [| a l IH]; simpl; intros x Hx; [discriminate |].
  destruct (f a) eqn:E; simpl.
  - rewrite Hu, E. congruence.
  - rewrite E. auto.
Qed.

Section FilterFacts.
Variable H : Host.
Variable g : Game.
Variable d : Directory.

Lemma shownBy_refl (ps : list Pack.t) (r : Row.t) : shownBy g ps r r.
Proof. split; auto. Qed.

Lemma showPack_shownBy (rows : list Row.t) (pack : Pack.t) :
  Forall2 (shownBy g [pack]) rows (showPack g d rows pack).
Proof.
  unfold showPack.
  destruct (find (isRowOf pack) rows);
    [| apply Forall2_refl_on; apply shownBy_refl].
  destruct (Pack.private pack && negb (isGM g)) eqn:E;
    [apply Forall2_refl_on; apply shownBy_refl |].
  eapply Forall2_impl; [| apply updateFirst_Forall2].
  intros r r' [-> | [Hrow ->]]; [apply shownBy_refl |].
  split; [reflexivity |]. right. split; [reflexivity |].
  exists pack. simpl. auto.
Qed.

Lemma shownBy_trans (p : Pack.t) (ps : list Pack.t) (r1 r2 r3 : Row.t) :
  shownBy g [p] r1 r2 -> shownBy g ps r2 r3 -> shownBy g (p :: ps) r1 r3.
Proof.
  intros [Hc12 H12] [Hc23 H23]. split; [congruence |].
  destruct H23 as [-> | [Hd [pack [Hin [Hrow Hperm]]]]].
  - destruct H12 as [-> | [Hd [pack [Hin Hrest]]]]; [now left |].
    right. split; [assumption |]. exists pack. split; [| assumption].
    destruct Hin as [-> | []]. now left.
  - right. split; [assumption |]. exists pack. split; [now right |].
    split; [| assumption]. unfold isRowOf in *. now rewrite <- Hc12.
Qed.

Lemma fold_showPack_shownBy (ps : list Pack.t) : forall rows,
  Forall2 (shownBy g ps) rows (fold_left (showPack g d) ps rows).
Proof.
  induction ps as [| p ps IH]; intros rows; simpl.
  - apply Forall2_refl_on. apply shownBy_refl.
  - eapply Forall2_compose; [| apply showPack_shownBy | apply IH].
    intros x y z. apply shownBy_trans.
Qed.

Lemma hideRest_hiddenOrKept (query : string) (rows : list Row.t) :
  Forall2 hiddenOrKept rows (hideRest H g query rows).
Proof.
  unfold hideRest. destruct (0 <? String.length query)%nat.
  - induction rows as [| r rows IH]; simpl; constructor; [| exact IH].
    destruct (isRowToHide H g query r); [now right | now left].
  - apply Forall2_refl_on. now left.
Qed.

(** A row found for a pack is still found after a turn of the loop, and
    a row that was shown stays shown. *)
Lemma showPack_find (rows : list Row.t) (p q : Pack.t) (r : Row.t) :
  find (isRowOf p) rows = Some r ->
  exists r', find (isRowOf p) (showPack g d rows q) = Some r'
             /\ (r' = r \/ r' = showRow d r).
Proof.
  intros Hfind. unfold showPack.
  destruct (find (isRowOf q) rows); [| eauto].
  destruct (Pack.private q && negb (isGM g)); [eauto |].
  apply find_updateFirst; auto.
Qed.

Lemma fold_showPack_find (ps : list Pack.t) (p : Pack.t) : forall rows r,
  find (isRowOf p) rows = Some r ->
  exists r', find (isRowOf p) (fold_left (showPack g d) ps rows) = Some r'
             /\ (Row.display r = "list-item" -> Row.display r' = "list-item").
Proof.
  induction ps as [| q ps IH]; intros rows r Hfind; simpl; [eauto |].
  destruct (showPack_find rows p q r Hfind) as [r1 [Hfind1 Hr1]].
  destruct (IH _ _ Hfind1) as [r' [Hfind' Hkeep]].
  exists r'. split; [assumption |]. intros Hshown. apply Hkeep.
  destruct Hr1 as [-> | ->]; auto.
Qed.

Lemma showPack_shows (rows : list Row.t) (p : Pack.t) (r : Row.t) :
  permitted g p ->
  find (isRowOf p) rows = Some r ->
  find (isRowOf p) (showPack g d rows p) = Some (showRow d r).
Proof.
  intros Hperm Hfind. unfold showPack. rewrite Hfind.
  assert (E : Pack.private p && negb (isGM g) = false).
  { destruct Hperm as [-> | ->]; [apply andb_false_r | reflexivity]. }
  rewrite E. apply find_updateFirst_same; auto.
Qed.

(** The loop over the packs shows the row of every pack it meets that
    the viewer may see. *)
Lemma fold_showPack_shows (ps : list Pack.t) (p : Pack.t) : forall rows r,
  In p ps -> permitted g p ->
  find (isRowOf p) rows = Some r ->
  exists r', find (isRowOf p) (fold_left (showPack g d) ps rows) = Some r'
             /\ Row.display r' = "list-item".
Proof.
  induction ps as [| q ps IH]; intros rows r Hin Hperm Hfind; simpl;
    [contradiction |].
  destruct Hin as [-> | Hin].
  - apply (showPack_shows rows p r Hperm) in Hfind.
    destruct (fold_showPack_find ps p _ _ Hfind) as [r' [Hfind' Hkeep]].
    exists r'. auto.
  - destruct (showPack_find rows p q r Hfind) as [r1 [Hfind1 _]].
    eapply IH; eauto.
Qed.
End FilterFacts.

(** * The claims *)

Lemma characters_le_jsLength (t : string) : characters t <= jsLength t.
Proof.
  induction t as [| c t IH]; cbn [characters jsLength]; [lia |].
  unfold utf16Units. generalize (nat_of_ascii c) as n. intros n.
  destruct (Nat.ltb_spec n 128);
    destruct (Nat.leb_spec 128 n);
    destruct (Nat.ltb_spec n 192);
    destruct (Nat.ltb_spec n 240); cbn [andb]; lia.
Qed.

(** C8, as the code has it. The length of a term is its [length], in
    UTF-16 code units. A term of fewer than two units is dropped:
    [processTerm] maps it to nothing, so it is neither among the terms
    indexed for a name nor among the terms of a query. Every other term,
    and so every term of two characters or more, is lower-cased with the
    locale of the active language. *)
Theorem short_terms_dropped_others_lowercased (H : Host) (g : Game) :
  (forall t, jsLength t < 2 -> processTerm H g t = None)
  /\ (forall t, 2 <= jsLength t ->
                processTerm H g t = Some (toLocaleLowerCase H (lang g) t))
  /\ (forall t, 2 <= characters t ->
                processTerm H g t = Some (toLocaleLowerCase H (lang g) t))
  /\ (forall text t,
        In t (MiniSearch.termsOf H (engineOptions H g) text) <->
        exists w, In w (tokenize H text) /\ 2 <= jsLength w
                  /\ t = toLocaleLowerCase H (lang g) w).
Proof.
  split; [| split; [| split]].
  - apply processTerm_short.
  - apply processTerm_long.
  - intros t Hlen. apply processTerm_long.
    pose proof (characters_le_jsLength t). lia.
  - apply termsOf_In.
Qed.

Lemma short_terms_dropped_others_lowercased_witness :
  processTerm exampleHost (exampleGame "p1" false) "a" = None
  /\ processTerm exampleHost (exampleGame "p1" false) lWithStroke = None
  /\ processTerm exampleHost (exampleGame "p1" false) "Gob" = Some "gob"
  /\ processTerm exampleHost (exampleGame "p1" false) grinningFace
     = Some grinningFace.
Proof.
  split; [| split; [| split]].
  - apply (proj1 (short_terms_dropped_others_lowercased
                    exampleHost (exampleGame "p1" false))).
    vm_compute. lia.
  - apply (proj1 (short_terms_dropped_others_lowercased
                    exampleHost (exampleGame "p1" false))).
    vm_compute. lia.
  - apply (proj1 (proj2 (short_terms_dropped_others_lowercased
                           exampleHost (exampleGame "p1" false))) "Gob").
    vm_compute. lia.
  - apply (proj1 (proj2 (short_terms_dropped_others_lowercased
                           exampleHost (exampleGame "p1" false))) grinningFace).
    vm_compute. lia.
Defined.

(** C8, as it is stated, fails: the grinning face is one character, fewer
    than two, and [processTerm] keeps it, because its [length] is 2. *)
Lemma single_character_beyond_the_bmp_is_kept :
  ~ (forall t, characters t < 2 ->
               processTerm exampleHost (exampleGame "p1" false) t = None).
Proof.
  intros Hclaim. specialize (Hclaim grinningFace).
  assert (Hone : characters grinningFace < 2) by (vm_compute; lia).
  specialize (Hclaim Hone). vm_compute in Hclaim. discriminate.
Qed.

(** C4. The index of a directory that was constructed holds exactly the
    entries of the eligible packs, in order: a record is stored if and only
    if it is an entry of a pack whose index is not empty, whose document
    type is not "JournalEntry" and which is not private unless the viewer
    is a GM; the record keeps the entry's own fields, [type] among them,
    and carries the metadata of its pack under [metadata]. *)
Theorem index_holds_entries_of_eligible_packs
    (H : Host) (g : Game) (n : nat) (d : Directory) :
  construct H g n = inr d ->
  map MiniSearch.doc (searchEngine d) = extracted g
  /\ forall r,
       In r (map MiniSearch.doc (searchEngine d)) <->
       exists p i,
         In p (packs g)
         /\ (Pack.index p <> [] /\ Pack.documentName p <> "JournalEntry"
             /\ (isGM g = true \/ Pack.private p = false))
         /\ In i (Pack.index p)
         /\ Doc._id r = IndexEntry._id i
         /\ Doc.name r = IndexEntry.name i
         /\ Doc.img r = IndexEntry.img i
         /\ Doc.type r = IndexEntry.type i
         /\ Doc.metadata r = Pack.metadata p.
Proof.
  intros Hd. pose proof (construct_docs H g n d Hd) as Hdocs.
  split; [exact Hdocs |]. intros r. rewrite Hdocs, extracted_In. split.
  - intros [p [i [Hp [He [Hi ->]]]]]. apply eligible_iff in He.
    exists p, i. simpl. repeat split; tauto.
  - intros [p [i [Hp [He [Hi [H1 [H2 [H3 [H4 H5]]]]]]]]].
    exists p, i. apply eligible_iff in He. repeat split; try assumption.
    destruct r; simpl in *; subst. reflexivity.
Qed.

Lemma index_holds_entries_of_eligible_packs_witness :
  map MiniSearch.doc
      [MiniSearch.posting exampleHost
         (engineOptions exampleHost (exampleGame "p1" false))
         (withMetadata (bestiary "p1")
            {| IndexEntry._id := "e1"; IndexEntry.name := "Goblin Warrior";
               IndexEntry.img := None; IndexEntry.type := "npc" |})]
  = extracted (exampleGame "p1" false).
Proof.
  apply (proj1 (index_holds_entries_of_eligible_packs
                  exampleHost (exampleGame "p1" false) 1
                  {| searchEngine := _; dragDrop := 1 |} eq_refl)).
Defined.

Lemma stored_app_old (ix ix' : MiniSearch.t) (id : string) :
  In id (MiniSearch.ids ix) ->
  MiniSearch.stored (ix ++ ix')%list id = MiniSearch.stored ix id.
Proof.
  unfold MiniSearch.stored, MiniSearch.ids.
  induction ix as [| p ix IH]; simpl; [contradiction |].
  intros [Hid | Hin].
  - rewrite Hid, String.eqb_refl. reflexivity.
  - destruct (Doc._id (MiniSearch.doc p) =? id); [reflexivity | auto].
Qed.

(** C5. Adding a record under an identifier already in use fails with the
    duplicate-key error, and an addition that goes through used a fresh
    identifier and leaves every earlier record in place. Compiling the index
    fails with that error when two eligible entries share an identifier;
    when the N eligible entries have distinct identifiers it yields N
    records, each retrievable under its own identifier. *)
Theorem duplicate_key_signaled_distinct_keys_all_stored (H : Host) (g : Game) :
  (forall ix r,
     In (Doc._id r) (MiniSearch.ids ix) ->
     MiniSearch.add H (engineOptions H g) ix r = inl (DuplicateID (Doc._id r)))
  /\ (forall ix r ix',
        MiniSearch.add H (engineOptions H g) ix r = inr ix' ->
        ~ In (Doc._id r) (MiniSearch.ids ix)
        /\ List.length ix' = S (List.length ix)
        /\ forall id, In id (MiniSearch.ids ix) ->
                      MiniSearch.stored ix' id = MiniSearch.stored ix id)
  /\ (~ NoDup (map Doc._id (extracted g)) ->
      exists id, compileSearchIndex H g MiniSearch.empty = inl (DuplicateID id)
                 /\ In id (map Doc._id (extracted g)))
  /\ (NoDup (map Doc._id (extracted g)) ->
      exists ix, compileSearchIndex H g MiniSearch.empty = inr ix
                 /\ List.length ix = List.length (extracted g)
                 /\ forall r, In r (extracted g) ->
                              MiniSearch.stored ix (Doc._id r) = Some r)
  /\ (forall ix, compileSearchIndex H g MiniSearch.empty = inr ix ->
                 NoDup (MiniSearch.ids ix)).
Proof.
  split; [| split; [| split; [| split]]].
  - intros ix r. apply add_duplicate.
  - intros ix r ix' Hadd. unfold MiniSearch.add in Hadd.
    destruct (MiniSearch.has ix (Doc._id r)) eqn:E; [discriminate |].
    inversion Hadd; subst. split; [| split].
    + intros Hin. apply has_In in Hin. congruence.
    + rewrite length_app. simpl. lia.
    + intros id Hin. now apply stored_app_old.
  - intros Hdup. rewrite compileSearchIndex_addAll.
    apply addAll_collision; [constructor | exact Hdup].
  - intros Hnd. rewrite compileSearchIndex_addAll.
    rewrite addAll_distinct by exact Hnd. simpl.
    eexists. split; [reflexivity |]. split.
    + apply length_map.
    + intros r Hr. now apply stored_index1.
  - intros ix Hok. rewrite compileSearchIndex_addAll in Hok.
    assert (Hnd : NoDup (MiniSearch.ids MiniSearch.empty ++ map Doc._id (extracted g))%list).
    { eapply addAll_inr_NoDup; [constructor | exact Hok]. }
    apply addAll_inr in Hok. subst ix. simpl in *.
    unfold MiniSearch.ids. rewrite map_map. exact Hnd.
Qed.

Lemma duplicate_key_signaled_distinct_keys_all_stored_witness :
  (exists id, compileSearchIndex exampleHost collidingGame MiniSearch.empty
              = inl (DuplicateID id)
              /\ In id (map Doc._id (extracted collidingGame)))
  /\ (exists ix, compileSearchIndex exampleHost (exampleGame "p1" false)
                   MiniSearch.empty = inr ix
                 /\ List.length ix = List.length (extracted (exampleGame "p1" false))
                 /\ forall r, In r (extracted (exampleGame "p1" false)) ->
                              MiniSearch.stored ix (Doc._id r) = Some r).
Proof.
  split.
  - apply (proj1 (proj2 (proj2 (duplicate_key_signaled_distinct_keys_all_stored
                                  exampleHost collidingGame)))).
    simpl. intros Hnd. inversion Hnd as [| ? ? Hout _]. apply Hout. simpl. auto.
  - apply (proj1 (proj2 (proj2 (proj2
             (duplicate_key_signaled_distinct_keys_all_stored
                exampleHost (exampleGame "p1" false)))))).
    simpl. constructor; [simpl; tauto | constructor].
Defined.

(** A result of the directory's search comes from a stored record whose
    name has, for every term of the query, a term that starts with it. *)
Lemma searchDocuments_In (H : Host) (g : Game) (n : nat) (d : Directory)
    (query : string) (m : SearchResult.t) :
  construct H g n = inr d ->
  In m (searchDocuments H g d query) ->
  MiniSearch.termsOf H (engineOptions H g) query <> []
  /\ exists r, In r (extracted g)
               /\ SearchResult.id m = Doc._id r
               /\ SearchResult.name m = Doc.name r
               /\ SearchResult.metadata m = Doc.metadata r
               /\ forall t, In t (MiniSearch.termsOf H (engineOptions H g) query) ->
                  exists w, In w (MiniSearch.termsOf H (engineOptions H g) (Doc.name r))
                            /\ String.prefix t w = true.
Proof.
  intros Hd Hm. apply construct_inr in Hd. destruct Hd as [Hix _].
  unfold searchDocuments in Hm. rewrite Hix in Hm. apply search_In in Hm.
  destruct Hm as [Hne [p [Hp [Hmatch ->]]]]. split; [exact Hne |].
  apply in_map_iff in Hp. destruct Hp as [r [<- Hr]].
  exists r. simpl. repeat split; try assumption.
  intros t Ht. unfold MiniSearch.matches in Hmatch. simpl in Hmatch.
  rewrite forallb_forall in Hmatch. specialize (Hmatch t Ht).
  unfold MiniSearch.termMatches in Hmatch. simpl in Hmatch.
  apply existsb_exists in Hmatch. exact Hmatch.
Qed.

(** C2, as the code has it. For a non-empty query, every match of the
    document search has a name in which every term of the query of two UTF-16
    code units or more is, case-folded, a prefix of a case-folded token: all
    these terms must match, each by prefix, and the query has at least one of
    them. A shorter term of the query is dropped and asks nothing of the
    name. *)
Theorem every_match_has_all_terms_as_prefixes
    (H : Host) (g : Game) (n : nat) (d : Directory)
    (query : string) (m : SearchResult.t) :
  construct H g n = inr d ->
  query <> "" ->
  In m (searchDocuments H g d query) ->
  (exists w, In w (tokenize H query) /\ 2 <= jsLength w)
  /\ forall w,
       In w (tokenize H query) ->
       2 <= jsLength w ->
       exists tok, In tok (tokenize H (SearchResult.name m))
                   /\ 2 <= jsLength tok
                   /\ String.prefix (toLocaleLowerCase H (lang g) w)
                                    (toLocaleLowerCase H (lang g) tok) = true.
Proof.
  intros Hd _ Hm.
  destruct (searchDocuments_In H g n d query m Hd Hm)
    as [Hne [r [_ [_ [Hname [_ Hall]]]]]].
  split.
  - destruct (MiniSearch.termsOf H (engineOptions H g) query) as [| t ts] eqn:E;
      [congruence |].
    assert (Ht : In t (MiniSearch.termsOf H (engineOptions H g) query))
      by (rewrite E; now left).
    apply termsOf_In in Ht. destruct Ht as [w [Hw [Hlen _]]]. eauto.
  - intros w Hw Hlen.
    destruct (Hall (toLocaleLowerCase H (lang g) w)) as [t [Ht Hpre]].
    { apply termsOf_In. exists w. auto. }
    apply termsOf_In in Ht. destruct Ht as [tok [Htok [Htoklen ->]]].
    exists tok. rewrite Hname. auto.
Qed.

Lemma every_match_has_all_terms_as_prefixes_witness :
  (exists w, In w (tokenize exampleHost "x War gob") /\ 2 <= jsLength w)
  /\ forall w,
       In w (tokenize exampleHost "x War gob") ->
       2 <= jsLength w ->
       exists tok, In tok (tokenize exampleHost "Goblin Warrior")
                   /\ 2 <= jsLength tok
                   /\ String.prefix (lowerString w) (lowerString tok) = true.
Proof.
  apply (every_match_has_all_terms_as_prefixes
           exampleHost (exampleGame "p1" false) 1
           {| searchEngine :=
                [MiniSearch.posting exampleHost
                   (engineOptions exampleHost (exampleGame "p1" false))
                   (withMetadata (bestiary "p1")
                      {| IndexEntry._id := "e1"; IndexEntry.name := "Goblin Warrior";
                         IndexEntry.img := None; IndexEntry.type := "npc" |})];
              dragDrop := 1 |}
           "x War gob"
           {| SearchResult.id := "e1";
              SearchResult.score := 1%Q;
              SearchResult.img := None;
              SearchResult.metadata := Pack.metadata (bestiary "p1");
              SearchResult.name := "Goblin Warrior";
              SearchResult.type := "npc" |}).
  - reflexivity.
  - discriminate.
  - vm_compute. left. reflexivity.
Defined.

(** C2, as it is stated, fails: the query "x gob" returns the entry "Goblin
    Warrior", and no token of that name starts with the term "x" of the
    query. *)
Lemma match_lacks_the_short_term_of_the_query :
  ~ (forall m,
       In m (searchDocuments exampleHost (exampleGame "p1" false)
               (directoryOf exampleHost (exampleGame "p1" false) 1) "x gob") ->
       forall w,
         In w (tokenize exampleHost "x gob") ->
         exists tok, In tok (tokenize exampleHost (SearchResult.name m))
                     /\ String.prefix (lowerString w) (lowerString tok) = true).
Proof.
  intros Hclaim.
  destruct (Hclaim
              {| SearchResult.id := "e1";
                 SearchResult.score := 1%Q;
                 SearchResult.img := None;
                 SearchResult.metadata := Pack.metadata (bestiary "p1");
                 SearchResult.name := "Goblin Warrior";
                 SearchResult.type := "npc" |}
              ltac:(vm_compute; left; reflexivity)
              "x"
              ltac:(vm_compute; left; reflexivity))
    as [tok [Hin Hpre]].
  vm_compute in Hin. destruct Hin as [<- | [<- | []]]; discriminate Hpre.
Qed.

(** The container pass leaves the row of a private pack as it was, or
    hides it, when the viewer is not a GM. *)
Lemma containerPass_private (H : Host) (g : Game) (d : Directory)
    (query : string) (p : Pack.t) (rows : list Row.t) :
  isGM g = false ->
  In p (packs g) ->
  Pack.private p = true ->
  NoDup (map Pack.collection (packs g)) ->
  Forall2 (fun r r' =>
             Row.collection r = Some (Pack.collection p) ->
             r' = r \/ r' = hideRow r)
          rows (containerPass H g d query rows).
Proof.
  intros Hgm Hp Hpriv Hkeys. unfold containerPass.
  eapply Forall2_compose;
    [| apply fold_showPack_shownBy | apply hideRest_hiddenOrKept].
  intros r r1 r' [Hc Hshown] Hhide Hrow.
  destruct Hshown as [-> | [_ [pack [Hin [Hrowof Hperm]]]]]; [exact Hhide |].
  exfalso.
  assert (Hpack : In pack (packs g)).
  { unfold filteredPacks in Hin.
    destruct (0 <? String.length query)%nat; [| exact Hin].
    apply filter_In in Hin. tauto. }
  unfold isRowOf, strictEq in Hrowof. rewrite Hrow in Hrowof.
  apply String.eqb_eq in Hrowof.
  assert (pack = p) by (eapply NoDup_map_inj; eauto). subst pack.
  rewrite Hpriv, Hgm in Hperm. discriminate.
Qed.

(** C3. When the viewer is not a GM, a private pack stays out of sight for
    every query: reconciliation leaves its row as it was or hides it, never
    sets it to "list-item" nor binds a drag handler to it, and no match of
    the document search carries the metadata of that pack. The packs of
    [game.packs] have distinct keys and distinct metadata ids. *)
Theorem private_pack_never_shown_nor_searched
    (H : Host) (g : Game) (n : nat) (d : Directory)
    (page : Page) (query : string) (p : Pack.t) :
  construct H g n = inr d ->
  isGM g = false ->
  In p (packs g) ->
  Pack.private p = true ->
  NoDup (map Pack.collection (packs g)) ->
  NoDup (map (fun q => Metadata.id (Pack.metadata q)) (packs g)) ->
  Forall2 (fun r r' =>
             Row.collection r = Some (Pack.collection p) ->
             r' = r \/ r' = hideRow r)
          (packRows page)
          (packRows (fst (_onSearchFilter H g d page query)))
  /\ forall m, In m (searchDocuments H g d query) ->
               Metadata.id (SearchResult.metadata m) <> Metadata.id (Pack.metadata p).
Proof.
  intros Hd Hgm Hp Hpriv Hkeys Hmeta. split.
  - assert (Hrows : packRows (fst (_onSearchFilter H g d page query))
                    = containerPass H g d query (packRows page)).
    { unfold _onSearchFilter. destruct (docMatches H g d query); [reflexivity |].
      simpl. destruct (matchTemplate page); reflexivity. }
    rewrite Hrows. now apply containerPass_private.
  - intros m Hm Heq.
    destruct (searchDocuments_In H g n d query m Hd Hm)
      as [_ [r [Hr [_ [_ [Hmd _]]]]]].
    apply extracted_In in Hr. destruct Hr as [q [i [Hq [He [_ ->]]]]].
    simpl in Hmd. rewrite Hmd in Heq.
    assert (q = p).
    { eapply (NoDup_map_inj (fun q => Metadata.id (Pack.metadata q))); eauto. }
    subst q. apply eligible_iff in He. destruct He as [_ [_ [Hg | Hnp]]]; congruence.
Qed.

Lemma private_pack_never_shown_nor_searched_witness :
  Forall2 (fun r r' =>
             Row.collection r = Some (Pack.collection vault) ->
             r' = r \/ r' = hideRow r)
          (packRows privatePage)
          (packRows (fst (_onSearchFilter exampleHost privateGame
                            (directoryOf exampleHost privateGame 1)
                            privatePage "goblin")))
  /\ forall m, In m (searchDocuments exampleHost privateGame
                       (directoryOf exampleHost privateGame 1) "goblin") ->
               Metadata.id (SearchResult.metadata m) <> Metadata.id (Pack.metadata vault).
Proof.
  apply (private_pack_never_shown_nor_searched
           exampleHost privateGame 1 (directoryOf exampleHost privateGame 1)
           privatePage "goblin" vault).
  - reflexivity.
  - reflexivity.
  - simpl. auto.
  - reflexivity.
  - simpl. repeat constructor; simpl; intuition discriminate.
  - simpl. repeat constructor; simpl; intuition discriminate.
Defined.

(** ** Reconciliation *)

Lemma _onSearchFilter_rows (H : Host) (g : Game) (d : Directory)
    (page : Page) (query : string) :
  packRows (fst (_onSearchFilter H g d page query))
  = containerPass H g d query (packRows page).
Proof.
  unfold _onSearchFilter. destruct (docMatches H g d query); [reflexivity |].
  simpl. destruct (matchTemplate page); reflexivity.
Qed.

(** C9. With the empty query there is no document match, whatever the
    index holds, nothing is thrown and no match list is touched; the row
    found for every pack the viewer may see is shown, and no row is hidden. *)
Theorem empty_query_no_match_permitted_rows_shown
    (H : Host) (g : Game) (d : Directory) (page : Page) :
  docMatches H g d "" = []
  /\ snd (_onSearchFilter H g d page "") = None
  /\ typeLists (fst (_onSearchFilter H g d page "")) = typeLists page
  /\ (forall p r,
        In p (packs g) -> permitted g p ->
        find (isRowOf p) (packRows page) = Some r ->
        exists r', find (isRowOf p) (packRows (fst (_onSearchFilter H g d page "")))
                   = Some r'
                   /\ Row.display r' = "list-item")
  /\ Forall2 (fun r r' => Row.collection r' = Row.collection r
                          /\ (r' = r \/ Row.display r' = "list-item"))
             (packRows page)
             (packRows (fst (_onSearchFilter H g d page ""))).
Proof.
  split; [reflexivity |]. split; [reflexivity |]. split; [reflexivity |].
  rewrite _onSearchFilter_rows. unfold containerPass, hideRest. simpl.
  split.
  - intros p r Hp Hperm Hfind.
    exact (fold_showPack_shows g d (packs g) p (packRows page) r Hp Hperm Hfind).
  - eapply Forall2_impl; [| apply (fold_showPack_shownBy g d)].
    intros r r' [Hc [-> | [Hshown _]]]; auto.
Qed.

Lemma empty_query_no_match_permitted_rows_shown_witness :
  exists r', find (isRowOf (bestiary "p1"))
               (packRows (fst (_onSearchFilter exampleHost (exampleGame "p1" false)
                                 (scenarioDirectory 1)
                                 (examplePage "p1" "none" None) "")))
             = Some r'
             /\ Row.display r' = "list-item".
Proof.
  apply (proj1 (proj2 (proj2 (proj2
           (empty_query_no_match_permitted_rows_shown
              exampleHost (exampleGame "p1" false) (scenarioDirectory 1)
              (examplePage "p1" "none" None)))))
           (bestiary "p1")
           {| Row.collection := Some "p1"; Row.display := "none"; Row.bound := 0 |}).
  - simpl. auto.
  - right. reflexivity.
  - reflexivity.
Defined.

(** C6. Reconciliation does not throw when there is no document match,
    and whether it throws does not depend on the rows or on how many of
    them are visible: it throws exactly when there is a document match and
    no match template, the error is "Match template not found", and no
    match list has been touched. *)
Theorem throws_exactly_without_match_template
    (H : Host) (g : Game) (d : Directory) (page : Page) (query : string) :
  (docMatches H g d query = [] -> snd (_onSearchFilter H g d page query) = None)
  /\ (forall e,
        snd (_onSearchFilter H g d page query) = Some e <->
        docMatches H g d query <> [] /\ matchTemplate page = None
        /\ e = MatchTemplateNotFound)
  /\ (forall page',
        matchTemplate page' = matchTemplate page ->
        snd (_onSearchFilter H g d page' query)
        = snd (_onSearchFilter H g d page query))
  /\ (snd (_onSearchFilter H g d page query) <> None ->
      typeLists (fst (_onSearchFilter H g d page query)) = typeLists page).
Proof.
  unfold _onSearchFilter.
  destruct (docMatches H g d query) as [| m ms] eqn:E; simpl.
  - split; [reflexivity |]. split; [| split].
    + intros e. split; [discriminate | intros [Hne _]; congruence].
    + intros page' _. reflexivity.
    + congruence.
  - destruct (matchTemplate page) as [template |] eqn:T; simpl.
    + split; [discriminate |]. split; [| split].
      * intros e. split; [discriminate | intros [_ [Hnone _]]; discriminate].
      * intros page' ->. reflexivity.
      * congruence.
    + split; [discriminate |]. split; [| split].
      * intros e. split.
        -- intros He. inversion He. repeat split. discriminate.
        -- intros [_ [_ ->]]. reflexivity.
      * intros page' ->. reflexivity.
      * reflexivity.
Qed.

Lemma throws_exactly_without_match_template_witness :
  snd (_onSearchFilter exampleHost (exampleGame "p1" false) (scenarioDirectory 1)
         (examplePage "p1" "none" None) "zz") = None
  /\ snd (_onSearchFilter exampleHost (exampleGame "p1" false) (scenarioDirectory 1)
            (examplePage "p1" "none" None) "gob") = Some MatchTemplateNotFound.
Proof.
  split.
  - apply (proj1 (throws_exactly_without_match_template
                    exampleHost (exampleGame "p1" false) (scenarioDirectory 1)
                    (examplePage "p1" "none" None) "zz")).
    reflexivity.
  - apply (proj1 (proj2 (throws_exactly_without_match_template
                    exampleHost (exampleGame "p1" false) (scenarioDirectory 1)
                    (examplePage "p1" "none" None) "gob"))).
    split; [| split]; [vm_compute; discriminate | reflexivity | reflexivity].
Defined.

(** ** The "gob" scenario *)

Section Scenario.
Variable H : Host.
Variable gm : bool.
Hypothesis tok_name : tokenize H "Goblin Warrior" = ["Goblin"; "Warrior"].
Hypothesis tok_query : tokenize H "gob" = ["gob"].
Hypothesis low_goblin : toLocaleLowerCase H "en" "Goblin" = "goblin".
Hypothesis low_warrior : toLocaleLowerCase H "en" "Warrior" = "warrior".
Hypothesis low_gob : toLocaleLowerCase H "en" "gob" = "gob".
Hypothesis low_title : toLocaleLowerCase H "en" "Bestiary" = "bestiary".

Let g := exampleGame "p1" gm.

Lemma scenario_name_terms :
  MiniSearch.termsOf H (engineOptions H g) "Goblin Warrior" = ["goblin"; "warrior"].
Proof.
  rewrite termsOf_filter, tok_name. simpl. now rewrite low_goblin, low_warrior.
Qed.

Lemma scenario_query_terms :
  MiniSearch.termsOf H (engineOptions H g) "gob" = ["gob"].
Proof. rewrite termsOf_filter, tok_query. simpl. now rewrite low_gob. Qed.

Lemma scenario_construct (n : nat) :
  construct H g n = inr (scenarioDirectory n).
Proof.
  unfold construct. rewrite compileSearchIndex_addAll.
  assert (E : extracted g = [scenarioDoc]).
  { unfold extracted. simpl. unfold eligible. simpl.
    rewrite orb_true_r. reflexivity. }
  rewrite E, addAll_distinct by (simpl; repeat constructor; simpl; tauto).
  simpl. unfold MiniSearch.posting.
  change (Doc.name scenarioDoc) with "Goblin Warrior".
  rewrite scenario_name_terms. reflexivity.
Qed.

Lemma scenario_search (n : nat) :
  docMatches H g (scenarioDirectory n) "gob" = [scenarioMatch H].
Proof.
  unfold docMatches, searchDocuments, MiniSearch.search. simpl.
  rewrite scenario_query_terms. reflexivity.
Qed.

Lemma scenario_title : matchesQuery H g "gob" (bestiary "p1") = false.
Proof.
  unfold matchesQuery, caseFold. simpl. rewrite low_gob, low_title. reflexivity.
Qed.

Lemma scenario_rows (n : nat) (rows : list Row.t) :
  containerPass H g (scenarioDirectory n) "gob" rows = map hideRow rows.
Proof.
  unfold containerPass, hideRest.
  assert (E : filteredPacks H g "gob" = []).
  { unfold filteredPacks. simpl. now rewrite scenario_title. }
  unfold isRowToHide. rewrite E. simpl.
  apply map_ext. intros r. destruct (getPack _ _); reflexivity.
Qed.
End Scenario.

(** C1, as the code has it. For the pack "Bestiary" of type "Actor" with the
    entry "e1", "Goblin Warrior", and the query "gob", the document pass
    returns exactly one match, with document id "e1" and pack id "p1", and
    the match is listed in the group of the type "Actor" under the uuid
    "Compendium.p1.e1". The container pass hides the row "p1": the title
    "Bestiary" does not contain "gob", and a document match does not show
    the row of its pack. *)
Theorem scenario_gob_one_match_row_hidden
    (H : Host) (gm : bool) (n : nat) (display : string) (template : MatchLi.t) :
  tokenize H "Goblin Warrior" = ["Goblin"; "Warrior"] ->
  tokenize H "gob" = ["gob"] ->
  toLocaleLowerCase H "en" "Goblin" = "goblin" ->
  toLocaleLowerCase H "en" "Warrior" = "warrior" ->
  toLocaleLowerCase H "en" "gob" = "gob" ->
  toLocaleLowerCase H "en" "Bestiary" = "bestiary" ->
  exists d m,
    construct H (exampleGame "p1" gm) n = inr d
    /\ docMatches H (exampleGame "p1" gm) d "gob" = [m]
    /\ SearchResult.id m = "e1"
    /\ Metadata.id (SearchResult.metadata m) = "p1"
    /\ matchesQuery H (exampleGame "p1" gm) "gob" (bestiary "p1") = false
    /\ _onSearchFilter H (exampleGame "p1" gm) d
         (examplePage "p1" display (Some template)) "gob"
       = ({| packRows :=
               [ {| Row.collection := Some "p1";
                    Row.display := "none";
                    Row.bound := 0 |} ];
             typeLists :=
               [ {| TypeList.type := Some "Actor";
                    TypeList.documentMatches := Some [matchElement H template m] |} ];
             matchTemplate := Some template;
             dragPreviews := [] |},
          None)
    /\ MatchLi.uuid (matchElement H template m) = Some "Compendium.p1.e1".
Proof.
  intros Htn Htq Hl1 Hl2 Hl3 Hl4.
  exists (scenarioDirectory n), (scenarioMatch H).
  split; [now apply scenario_construct |].
  split; [now apply scenario_search |].
  split; [reflexivity |]. split; [reflexivity |].
  split; [now apply scenario_title |].
  split; [| reflexivity].
  unfold _onSearchFilter. rewrite scenario_search by assumption.
  rewrite scenario_rows by assumption. reflexivity.
Qed.

Lemma scenario_gob_one_match_row_hidden_witness :
  exists d m,
    construct exampleHost (exampleGame "p1" false) 1 = inr d
    /\ docMatches exampleHost (exampleGame "p1" false) d "gob" = [m]
    /\ SearchResult.id m = "e1"
    /\ Metadata.id (SearchResult.metadata m) = "p1"
    /\ matchesQuery exampleHost (exampleGame "p1" false) "gob" (bestiary "p1") = false
    /\ _onSearchFilter exampleHost (exampleGame "p1" false) d
         (examplePage "p1" "list-item" (Some exampleTemplate)) "gob"
       = ({| packRows :=
               [ {| Row.collection := Some "p1";
                    Row.display := "none";
                    Row.bound := 0 |} ];
             typeLists :=
               [ {| TypeList.type := Some "Actor";
                    TypeList.documentMatches :=
                      Some [matchElement exampleHost exampleTemplate m] |} ];
             matchTemplate := Some exampleTemplate;
             dragPreviews := [] |},
          None)
    /\ MatchLi.uuid (matchElement exampleHost exampleTemplate m)
       = Some "Compendium.p1.e1".
Proof.
  apply (scenario_gob_one_match_row_hidden
           exampleHost false 1 "list-item" exampleTemplate); reflexivity.
Defined.

(** C1, as it is stated, fails: after the query "gob" the row "p1", which
    was shown, is not shown any more, although the document pass has
    returned its one match. *)
Lemma scenario_gob_row_not_shown :
  ~ ((exists m,
        docMatches exampleHost (exampleGame "p1" false)
          (directoryOf exampleHost (exampleGame "p1" false) 1) "gob"
        = [m]
        /\ SearchResult.id m = "e1"
        /\ Metadata.id (SearchResult.metadata m) = "p1")
     /\ exists r,
          In r (packRows
                  (fst (_onSearchFilter exampleHost (exampleGame "p1" false)
                          (directoryOf exampleHost (exampleGame "p1" false) 1)
                          (examplePage "p1" "list-item" (Some exampleTemplate))
                          "gob")))
          /\ Row.collection r = Some "p1"
          /\ Row.display r = "list-item").
Proof.
  intros [_ [r [Hin [_ Hshown]]]].
  vm_compute in Hin. destruct Hin as [<- | []]. discriminate.
Qed.

(** ** Dragging a match *)

Lemma getPack_collection (g : Game) (key : string) (p : Pack.t) :
  getPack g key = Some p -> In p (packs g) /\ Pack.collection p = key.
Proof.
  unfold getPack. intros Hfind. apply find_some in Hfind.
  destruct Hfind as [Hin Heq]. apply String.eqb_eq in Heq. auto.
Qed.

Lemma getData_setData (dt : DataTransfer.t) (format : string) (v : DragData.t) :
  DataTransfer.getData (DataTransfer.setData dt format v) format = Some v.
Proof.
  unfold DataTransfer.getData, DataTransfer.setData. simpl.
  induction (DataTransfer.data dt) as [| e es IH]; simpl.
  - now rewrite String.eqb_refl.
  - destruct (fst e =? format) eqn:E; simpl; [exact IH |].
    rewrite E. exact IH.
Qed.

(** C7. A drag started on the entry D of a pack that [game.packs] resolves
    under the collection id C throws nothing and puts under "text/plain" the
    descriptor whose [type] is the document type of the pack and whose
    [uuid] is "Compendium.C.D"; the pack found under C has C as its
    collection id. *)
Theorem drag_descriptor_is_type_and_uuid
    (g : Game) (page : Page) (event : DragEvent.t)
    (C D : string) (pack : Pack.t) (entry : IndexEntry.t) :
  DragEvent.collection event = Some C ->
  DragEvent.documentId event = Some D ->
  C <> "" ->
  D <> "" ->
  getPack g C = Some pack ->
  getEntry pack D = Some entry ->
  Pack.collection pack = C
  /\ snd (_onDragStart g page event) = None
  /\ DataTransfer.getData (snd (fst (_onDragStart g page event))) "text/plain"
     = Some {| DragData.type := Pack.documentName pack;
               DragData.uuid := "Compendium." ++ C ++ "." ++ D |}.
Proof.
  intros HC HD HCne HDne Hpack Hentry.
  destruct (getPack_collection g C pack Hpack) as [_ Hkey].
  split; [exact Hkey |].
  unfold _onDragStart. rewrite HC, HD. simpl.
  apply String.eqb_neq in HCne. apply String.eqb_neq in HDne.
  rewrite HCne, HDne. simpl. rewrite Hpack, Hentry. simpl.
  split; [reflexivity |]. rewrite Hkey.
  apply (getData_setData
           (DataTransfer.setDragImage (DragEvent.dataTransfer event) _ 75 25)).
Qed.

Lemma drag_descriptor_is_type_and_uuid_witness :
  Pack.collection (bestiary "world.bestiary") = "world.bestiary"
  /\ snd (_onDragStart (exampleGame "world.bestiary" false)
            (examplePage "world.bestiary" "list-item" None) exampleDrag) = None
  /\ DataTransfer.getData
       (snd (fst (_onDragStart (exampleGame "world.bestiary" false)
                    (examplePage "world.bestiary" "list-item" None) exampleDrag)))
       "text/plain"
     = Some {| DragData.type := "Actor";
               DragData.uuid := "Compendium.world.bestiary.e1" |}.
Proof.
  apply (drag_descriptor_is_type_and_uuid
           (exampleGame "world.bestiary" false)
           (examplePage "world.bestiary" "list-item" None) exampleDrag
           "world.bestiary" "e1" (bestiary "world.bestiary")
           {| IndexEntry._id := "e1"; IndexEntry.name := "Goblin Warrior";
              IndexEntry.img := None; IndexEntry.type := "npc" |}).
  - reflexivity.
  - reflexivity.
  - discriminate.
  - discriminate.
  - reflexivity.
  - reflexivity.
Defined.

(** C10. A drag whose element lacks the collection id or the document id
    returns at once: nothing is thrown, the page keeps its drag previews
    and the transfer its data. An error of a strict lookup can only come
    out when both identifiers are there. *)
Theorem drag_without_identifiers_does_nothing
    (g : Game) (page : Page) (event : DragEvent.t) :
  (truthy (DragEvent.collection event) = false
   \/ truthy (DragEvent.documentId event) = false ->
   _onDragStart g page event = (page, DragEvent.dataTransfer event, None))
  /\ (forall e,
        snd (_onDragStart g page event) = Some e ->
        truthy (DragEvent.collection event) = true
        /\ truthy (DragEvent.documentId event) = true).
Proof.
  unfold _onDragStart. split.
  - intros Hlack.
    assert (E : truthy (DragEvent.collection event)
                && truthy (DragEvent.documentId event) = false).
    { destruct Hlack as [-> | ->]; [reflexivity | apply andb_false_r]. }
    rewrite E. reflexivity.
  - intros e.
    destruct (truthy (DragEvent.collection event)
              && truthy (DragEvent.documentId event)) eqn:E; simpl.
    + intros _. now apply andb_true_iff in E.
    + discriminate.
Qed.

Lemma drag_without_identifiers_does_nothing_witness :
  _onDragStart (exampleGame "world.bestiary" false) pageWithPreview
    {| DragEvent.collection := Some "world.bestiary";
       DragEvent.documentId := None;
       DragEvent.dataTransfer := emptyTransfer |}
  = (pageWithPreview, emptyTransfer, None).
Proof.
  apply (proj1 (drag_without_identifiers_does_nothing
                  (exampleGame "world.bestiary" false) pageWithPreview
                  {| DragEvent.collection := Some "world.bestiary";
                     DragEvent.documentId := None;
                     DragEvent.dataTransfer := emptyTransfer |})).
  right. reflexivity.
Defined.

(** * Further properties of the directory *)

(** ** The title test *)

Lemma prefix_append (n h : string) :
  String.prefix n h = true <-> exists post, h = n ++ post.
Proof.
  revert h. induction n as [| a n IH]; intros h.
  - split; [intros _; exists h; reflexivity | intros _; destruct h; reflexivity].
  - destruct h as [| b h]; simpl.
    + split; [discriminate | intros [post Hpost]; discriminate].
    + destruct (ascii_dec a b) as [-> | Hne].
      * rewrite IH. split; intros [post Hpost]; exists post; congruence.
      * split; [discriminate | intros [post Hpost]; congruence].
Qed.

Lemma includes_substring (hay needle : string) :
  includes hay needle = true <-> exists pre post, hay = pre ++ needle ++ post.
Proof.
  induction hay as [| c hay IH]; cbn [includes].
  - rewrite orb_false_r, prefix_append. split.
    + intros [post Hpost]. exists "", post. exact Hpost.
    + intros [pre [post Heq]]. destruct pre; [| discriminate].
      exists post. exact Heq.
  - rewrite orb_true_iff, IH, prefix_append. split.
    + intros [[post Hpost] | [pre [post Heq]]].
      * exists "", post. exact Hpost.
      * exists (String c pre), post. simpl. now rewrite Heq.
    + intros [pre [post Heq]]. destruct pre as [| c' pre]; simpl in Heq.
      * left. exists post. exact Heq.
      * right. exists pre, post. congruence.
Qed.

(** X1. The title test of the container pass is a case-insensitive
    substring test: a pack passes exactly when its title, case-folded, is
    some text, the case-folded query, some text. *)
Theorem title_test_is_folded_substring
    (H : Host) (g : Game) (query : string) (pack : Pack.t) :
  matchesQuery H g query pack = true <->
  exists pre post,
    toLocaleLowerCase H (lang g) (Pack.title pack)
    = pre ++ toLocaleLowerCase H (lang g) query ++ post.
Proof. unfold matchesQuery, caseFold. apply includes_substring. Qed.

Lemma title_test_is_folded_substring_witness :
  matchesQuery exampleHost (exampleGame "p1" false) "STIA" (bestiary "p1") = true.
Proof.
  apply (proj2 (title_test_is_folded_substring
                  exampleHost (exampleGame "p1" false) "STIA" (bestiary "p1"))).
  exists "be", "ry". reflexivity.
Defined.

(** ** Which rows the container pass hides, shows and leaves *)

Lemma find_exists_some {A : Type} (f : A -> bool) (l : list A) (x : A) :
  In x l -> f x = true -> exists y, find f l = Some y.
Proof.
  intros Hin Hf. destruct (find f l) as [y |] eqn:E; [eauto |].
  exfalso. pose proof (find_none f l E x Hin). congruence.
Qed.

Lemma getPack_unique (g : Game) (p : Pack.t) :
  NoDup (map Pack.collection (packs g)) ->
  In p (packs g) ->
  getPack g (Pack.collection p) = Some p.
Proof.
  intros Hkeys Hin.
  destruct (find_exists_some (fun q => Pack.collection q =? Pack.collection p)
              (packs g) p Hin (String.eqb_refl _)) as [q Hq].
  unfold getPack. rewrite Hq. f_equal.
  apply find_some in Hq. destruct Hq as [Hqin Heq]. apply String.eqb_eq in Heq.
  eapply NoDup_map_inj; eauto.
Qed.

Section HideFacts.
Variable H : Host.
Variable g : Game.
Variable d : Directory.
Hypothesis keys : NoDup (map Pack.collection (packs g)).

Lemma filteredPacks_In (query : string) (p : Pack.t) :
  In p (filteredPacks H g query) -> In p (packs g).
Proof.
  unfold filteredPacks. destruct (0 <? String.length query)%nat; [| auto].
  intros Hin. apply filter_In in Hin. tauto.
Qed.

(** With a query, a row is to hide exactly when its key resolves to no
    pack or to a pack whose title fails the test. *)
Lemma isRowToHide_iff (query : string) (r : Row.t) :
  query <> "" ->
  isRowToHide H g query r = true <->
  match getPack g (rowKey r) with
  | None => True
  | Some p => matchesQuery H g query p = false
  end.
Proof.
  intros Hq. unfold isRowToHide. fold (rowKey r).
  assert (Hlen : (0 <? String.length query)%nat = true).
  { destruct query; [congruence | reflexivity]. }
  unfold filteredPacks. rewrite Hlen. rewrite negb_true_iff.
  destruct (getPack g (rowKey r)) as [p |] eqn:E; simpl; [| tauto].
  destruct (getPack_collection g _ p E) as [Hin Hkey].
  destruct (matchesQuery H g query p) eqn:M.
  - split; [| discriminate]. intros Hnone.
    assert (Hex : existsb (fun p' => Pack.collection p' =? Pack.collection p)
                    (filter (matchesQuery H g query) (packs g)) = true).
    { apply existsb_exists. exists p. split; [| apply String.eqb_refl].
      apply filter_In. auto. }
    congruence.
  - split; [reflexivity |]. intros _.
    destruct (existsb _ _) eqn:Ex; [| reflexivity].
    apply existsb_exists in Ex. destruct Ex as [p' [Hp' Heq]].
    apply filter_In in Hp'. destruct Hp' as [Hin' M'].
    apply String.eqb_eq in Heq.
    assert (p' = p) by (eapply NoDup_map_inj; eauto). subst p'. congruence.
Qed.

(** The loop over the filtered packs leaves a row to hide as it is. *)
Lemma shown_not_to_hide (query : string) (r r' : Row.t) :
  shownBy g (filteredPacks H g query) r r' ->
  isRowToHide H g query r = true ->
  r' = r.
Proof.
  intros [_ [Heq | [_ [pack [Hin [Hrow _]]]]]] Hhide; [exact Heq |].
  exfalso. unfold isRowToHide in Hhide. apply negb_true_iff in Hhide.
  unfold isRowOf, strictEq in Hrow.
  destruct (Row.collection r) as [c |]; [| discriminate].
  apply String.eqb_eq in Hrow. subst c.
  rewrite (getPack_unique g pack keys (filteredPacks_In query pack Hin)) in Hhide.
  simpl in Hhide.
  assert (Hex : existsb (fun p' => Pack.collection p' =? Pack.collection pack)
                  (filteredPacks H g query) = true).
  { apply existsb_exists. exists pack. split; [assumption | apply String.eqb_refl]. }
  congruence.
Qed.

Lemma hideRest_pointwise (query : string) (rows : list Row.t) :
  query <> "" ->
  hideRest H g query rows
  = map (fun r => if isRowToHide H g query r then hideRow r else r) rows.
Proof.
  intros Hq. unfold hideRest.
  destruct query; [congruence | reflexivity].
Qed.

Lemma isRowToHide_collection (query : string) (r r' : Row.t) :
  Row.collection r' = Row.collection r ->
  isRowToHide H g query r' = isRowToHide H g query r.
Proof. intros Hc. unfold isRowToHide. now rewrite Hc. Qed.

(** Every row after the container pass, from the row before it. *)
Lemma containerPass_rows (query : string) (rows : list Row.t) :
  query <> "" ->
  Forall2 (fun r r' =>
             if isRowToHide H g query r then r' = hideRow r
             else shownBy g (filteredPacks H g query) r r')
          rows (containerPass H g d query rows).
Proof.
  intros Hq. unfold containerPass. rewrite hideRest_pointwise by assumption.
  pose proof (fold_showPack_shownBy g d (filteredPacks H g query) rows) as Hshown.
  induction Hshown as [| r r1 rows rows1 Hr _ IH]; simpl; constructor; [| exact IH].
  rewrite (isRowToHide_collection query r r1 (proj1 Hr)).
  destruct (isRowToHide H g query r) eqn:E; [| exact Hr].
  now rewrite (shown_not_to_hide query r r1 Hr E).
Qed.
End HideFacts.

(** X2. With a query, the container pass hides every row whose key
    resolves to no pack, and every row whose pack has a title that fails
    the test: the row gets the display "none" and nothing else of it
    changes. A row without [dataset.collection] is looked up under the
    empty key. *)
Theorem rows_without_title_match_are_hidden
    (H : Host) (g : Game) (d : Directory) (query : string) (rows : list Row.t) :
  query <> "" ->
  NoDup (map Pack.collection (packs g)) ->
  Forall2 (fun r r' =>
             match getPack g (rowKey r) with
             | None => r' = hideRow r
             | Some p => matchesQuery H g query p = false -> r' = hideRow r
             end)
          rows (containerPass H g d query rows).
Proof.
  intros Hq Hkeys.
  eapply Forall2_impl; [| apply (containerPass_rows H g d Hkeys query rows Hq)].
  intros r r' Hrow. simpl in Hrow.
  pose proof (isRowToHide_iff H g Hkeys query r Hq) as Hiff.
  destruct (getPack g (rowKey r)) as [p |].
  - intros M. apply Hiff in M. now rewrite M in Hrow.
  - rewrite (proj2 Hiff I) in Hrow. exact Hrow.
Qed.

Lemma rows_without_title_match_are_hidden_witness :
  Forall2 (fun r r' =>
             match getPack privateGame (rowKey r) with
             | None => r' = hideRow r
             | Some p =>
                 matchesQuery exampleHost privateGame "best" p = false ->
                 r' = hideRow r
             end)
          threeRows
          (containerPass exampleHost privateGame
             (directoryOf exampleHost privateGame 1) "best" threeRows).
Proof.
  apply (rows_without_title_match_are_hidden
           exampleHost privateGame (directoryOf exampleHost privateGame 1)
           "best" threeRows).
  - discriminate.
  - simpl. repeat constructor; simpl; intuition discriminate.
Defined.

(** X3. With a query, the row of a private pack whose title passes the
    test is left exactly as it was when the viewer is not a GM: it is not
    shown, and it is not hidden either. *)
Theorem private_row_with_title_match_is_untouched
    (H : Host) (g : Game) (d : Directory) (query : string) (rows : list Row.t) :
  query <> "" ->
  NoDup (map Pack.collection (packs g)) ->
  isGM g = false ->
  Forall2 (fun r r' =>
             forall p, getPack g (rowKey r) = Some p ->
                       Pack.private p = true ->
                       matchesQuery H g query p = true ->
                       r' = r)
          rows (containerPass H g d query rows).
Proof.
  intros Hq Hkeys Hgm.
  eapply Forall2_impl; [| apply (containerPass_rows H g d Hkeys query rows Hq)].
  intros r r' Hrow p Hp Hpriv M. simpl in Hrow.
  pose proof (isRowToHide_iff H g Hkeys query r Hq) as Hiff. rewrite Hp in Hiff.
  destruct (isRowToHide H g query r) eqn:E.
  - assert (matchesQuery H g query p = false) by now apply Hiff. congruence.
  - destruct Hrow as [_ [Heq | [_ [pack [Hin [Hrowof Hperm]]]]]]; [exact Heq |].
    exfalso. unfold isRowOf, strictEq in Hrowof. unfold rowKey in Hp.
    destruct (Row.collection r) as [c |]; [| discriminate].
    apply String.eqb_eq in Hrowof. subst c.
    rewrite (getPack_unique g pack Hkeys (filteredPacks_In H g query pack Hin)) in Hp.
    inversion Hp; subst pack. rewrite Hpriv, Hgm in Hperm. discriminate.
Qed.

Lemma private_row_with_title_match_is_untouched_witness :
  Forall2 (fun r r' =>
             forall p, getPack privateGame (rowKey r) = Some p ->
                       Pack.private p = true ->
                       matchesQuery exampleHost privateGame "vault" p = true ->
                       r' = r)
          threeRows
          (containerPass exampleHost privateGame
             (directoryOf exampleHost privateGame 1) "vault" threeRows).
Proof.
  apply (private_row_with_title_match_is_untouched
           exampleHost privateGame (directoryOf exampleHost privateGame 1)
           "vault" threeRows).
  - discriminate.
  - simpl. repeat constructor; simpl; intuition discriminate.
  - reflexivity.
Defined.

(** ** The loop over the filtered packs as one pass over the rows *)

Lemma updateFirst_absent {A : Type} (f : A -> bool) (u : A -> A) (l : list A) :
  find f l = None -> updateFirst f u l = l.
Proof.
  induction l as [| a l IH]; simpl; [reflexivity |].
  destruct (f a); [discriminate |]. intros Hnone. now rewrite IH.
Qed.

Lemma find_map_same {A : Type} (f : A -> bool) (h : A -> A) (l : list A) :
  (forall x, f (h x) = f x) ->
  find f (map h l) = option_map h (find f l).
Proof.
  intros Hh. induction l as [| a l IH]; simpl; [reflexivity |].
  rewrite Hh. destruct (f a); [reflexivity | exact IH].
Qed.

Lemma NoDup_map_filter {A B : Type} (f : A -> B) (keep : A -> bool) (l : list A) :
  NoDup (map f l) -> NoDup (map f (filter keep l)).
Proof.
  induction l as [| a l IH]; simpl; intros Hnd; [constructor |].
  inversion Hnd as [| ? ? Hout Hnd']; subst.
  destruct (keep a); simpl; [| auto].
  constructor; [| auto].
  intros Hin. apply Hout. apply in_map_iff in Hin.
  destruct Hin as [x [Hx Hin]]. apply filter_In in Hin.
  apply in_map_iff. exists x. tauto.
Qed.

Section PassFacts.
Variable g : Game.
Variable d : Directory.

Lemma showPack_updateFirst (rows : list Row.t) (p : Pack.t) :
  showPack g d rows p =
  if Pack.private p && negb (isGM g) then rows
  else updateFirst (isRowOf p) (showRow d) rows.
Proof.
  unfold showPack. destruct (find (isRowOf p) rows) eqn:E; [reflexivity |].
  rewrite updateFirst_absent by assumption. now destruct (_ && _).
Qed.

Lemma showable_not_in (ps : list Pack.t) (c : string) :
  ~ In c (map Pack.collection ps) -> showable g ps c = false.
Proof.
  intros Hout. unfold showable.
  destruct (existsb _ ps) eqn:E; [| reflexivity].
  exfalso. apply existsb_exists in E. destruct E as [p [Hin Hp]].
  apply andb_true_iff in Hp. destruct Hp as [Hkey _].
  apply String.eqb_eq in Hkey. apply Hout. rewrite <- Hkey. now apply in_map.
Qed.

Lemma showable_In (ps : list Pack.t) (p : Pack.t) :
  In p ps -> permitted g p -> showable g ps (Pack.collection p) = true.
Proof.
  intros Hin Hperm. unfold showable. apply existsb_exists. exists p.
  split; [assumption |]. rewrite String.eqb_refl. simpl.
  destruct Hperm as [-> | ->]; [now rewrite andb_false_r | reflexivity].
Qed.

(** Only the ids not met yet matter. *)
Lemma showFirstRows_congr (ps ps' : list Pack.t) (rows : list Row.t) :
  forall seen,
    (forall c, existsb (String.eqb c) seen = false ->
               showable g ps c = showable g ps' c) ->
    showFirstRows g d ps seen rows = showFirstRows g d ps' seen rows.
Proof.
  induction rows as [| r rows IH]; intros seen Hsame; simpl; [reflexivity |].
  destruct (Row.collection r) as [c |].
  - f_equal.
    + destruct (existsb (String.eqb c) seen) eqn:E.
      * now rewrite !andb_false_r.
      * now rewrite (Hsame c E).
    + apply IH. intros c' Hc'. simpl in Hc'.
      apply orb_false_iff in Hc'. apply Hsame. tauto.
  - f_equal. now apply IH.
Qed.

Lemma showFirstRows_nil (rows : list Row.t) :
  forall seen, showFirstRows g d [] seen rows = rows.
Proof.
  induction rows as [| r rows IH]; intros seen; simpl; [reflexivity |].
  destruct (Row.collection r); now rewrite IH.
Qed.

(** One turn of the loop, for a pack whose key no later pack has. *)
Lemma showFirstRows_step (ps : list Pack.t) (p : Pack.t) (rows : list Row.t) :
  showable g ps (Pack.collection p) = false ->
  forall seen,
    existsb (String.eqb (Pack.collection p)) seen = false ->
    showFirstRows g d ps seen (showPack g d rows p)
    = showFirstRows g d (p :: ps) seen rows.
Proof.
  intros Hfresh. rewrite showPack_updateFirst.
  destruct (Pack.private p && negb (isGM g)) eqn:Hperm.
  - intros seen _. apply showFirstRows_congr. intros c _.
    unfold showable. simpl. rewrite Hperm. simpl. now rewrite andb_false_r.
  - induction rows as [| r rows IH]; intros seen Hseen; simpl; [reflexivity |].
    unfold isRowOf at 1, strictEq.
    destruct (Row.collection r) as [c |] eqn:Hc.
    + destruct (String.eqb_spec c (Pack.collection p)) as [-> | Hne].
      * simpl. rewrite Hc, Hfresh, String.eqb_refl, Hperm, Hseen. simpl.
        f_equal. apply showFirstRows_congr. intros c' Hc'. simpl in Hc'.
        apply orb_false_iff in Hc'. destruct Hc' as [Hne _].
        unfold showable. simpl.
        rewrite (String.eqb_sym (Pack.collection p) c'), Hne. reflexivity.
      * apply String.eqb_neq in Hne.
        simpl. rewrite Hc, (String.eqb_sym (Pack.collection p) c), Hne. simpl.
        f_equal. apply IH. simpl.
        now rewrite Hseen, (String.eqb_sym (Pack.collection p) c), Hne.
    + simpl. rewrite Hc. f_equal. now apply IH.
Qed.

(** The loop over packs with distinct keys shows the first row of each
    showable collection id, once. *)
Lemma fold_showPack_showFirstRows (ps : list Pack.t) : forall rows,
  NoDup (map Pack.collection ps) ->
  fold_left (showPack g d) ps rows = showFirstRows g d ps [] rows.
Proof.
  induction ps as [| p ps IH]; intros rows Hnd; simpl.
  - now rewrite showFirstRows_nil.
  - inversion Hnd as [| ? ? Hout Hnd']; subst.
    rewrite IH by assumption.
    apply showFirstRows_step; [now apply showable_not_in | reflexivity].
Qed.

Lemma find_showFirstRows (ps : list Pack.t) (p : Pack.t) (rows : list Row.t) :
  forall seen r,
    existsb (String.eqb (Pack.collection p)) seen = false ->
    find (isRowOf p) rows = Some r ->
    find (isRowOf p) (showFirstRows g d ps seen rows)
    = Some (if showable g ps (Pack.collection p) then showRow d r else r).
Proof.
  induction rows as [| r0 rows IH]; intros seen r Hseen Hfind; simpl in *;
    [discriminate |].
  unfold isRowOf at 1, strictEq in Hfind.
  destruct (Row.collection r0) as [c |] eqn:Hc.
  - destruct (String.eqb_spec c (Pack.collection p)) as [-> | Hne].
    + inversion Hfind; subst r0. rewrite Hseen. simpl. rewrite andb_true_r.
      destruct (showable g ps (Pack.collection p)); simpl;
        unfold isRowOf, strictEq; simpl; rewrite ?Hc, String.eqb_refl; reflexivity.
    + assert (Hskip : forall r1, Row.collection r1 = Some c ->
                                 isRowOf p r1 = false).
      { intros r1 H1. unfold isRowOf, strictEq. rewrite H1.
        now apply String.eqb_neq. }
      simpl. rewrite Hskip by (destruct (_ && _); simpl; assumption).
      apply IH; [| exact Hfind]. simpl. rewrite Hseen.
      apply String.eqb_neq in Hne.
      now rewrite (String.eqb_sym (Pack.collection p) c), Hne.
  - simpl. unfold isRowOf at 1, strictEq. rewrite Hc. now apply IH.
Qed.
End PassFacts.

Lemma isRowOf_collection (p : Pack.t) (r : Row.t) :
  isRowOf p r = true <-> Row.collection r = Some (Pack.collection p).
Proof.
  unfold isRowOf, strictEq. destruct (Row.collection r) as [c |].
  - rewrite String.eqb_eq. split; congruence.
  - split; discriminate.
Qed.

Lemma filteredPacks_keys (H : Host) (g : Game) (query : string) :
  NoDup (map Pack.collection (packs g)) ->
  NoDup (map Pack.collection (filteredPacks H g query)).
Proof.
  intros Hkeys. unfold filteredPacks.
  destruct (0 <? String.length query)%nat; [| exact Hkeys].
  now apply NoDup_map_filter.
Qed.

Lemma filteredPacks_iff (H : Host) (g : Game) (query : string) (p : Pack.t) :
  In p (filteredPacks H g query) <->
  In p (packs g) /\ (query = "" \/ matchesQuery H g query p = true).
Proof.
  unfold filteredPacks. destruct query as [| c query]; simpl.
  - tauto.
  - rewrite filter_In. split.
    + tauto.
    + intros [Hin [Hempty | M]]; [discriminate | tauto].
Qed.

(** X4. The container pass shows the row of every pack that it keeps and
    that the viewer may see: a pack of [game.packs], with any title when the
    query is empty and with a title that passes the test otherwise. The
    row that [find] gives for the pack gets the display "list-item", and
    the drag handlers of the directory are bound to it once. *)
Theorem row_of_kept_pack_is_shown_and_bound_once
    (H : Host) (g : Game) (d : Directory) (query : string)
    (rows : list Row.t) (p : Pack.t) (r : Row.t) :
  NoDup (map Pack.collection (packs g)) ->
  In p (packs g) ->
  query = "" \/ matchesQuery H g query p = true ->
  permitted g p ->
  find (isRowOf p) rows = Some r ->
  find (isRowOf p) (containerPass H g d query rows)
  = Some {| Row.collection := Row.collection r;
            Row.display := "list-item";
            Row.bound := Row.bound r + dragDrop d |}.
Proof.
  intros Hkeys Hp Hkept Hperm Hfind.
  assert (Hin : In p (filteredPacks H g query)) by (apply filteredPacks_iff; auto).
  unfold containerPass.
  rewrite fold_showPack_showFirstRows by now apply filteredPacks_keys.
  pose proof (find_showFirstRows g d (filteredPacks H g query) p rows [] r
                eq_refl Hfind) as Hshown.
  rewrite (showable_In g _ p Hin Hperm) in Hshown.
  destruct (String.eqb_spec query "") as [-> | Hq]; [exact Hshown |].
  rewrite (hideRest_pointwise H g query _ Hq).
  rewrite find_map_same, Hshown.
  - simpl.
    assert (E : isRowToHide H g query (showRow d r) = false).
    { destruct (isRowToHide H g query (showRow d r)) eqn:E; [| reflexivity].
      apply (isRowToHide_iff H g Hkeys query _ Hq) in E.
      apply find_some in Hfind. destruct Hfind as [_ Hrow].
      apply isRowOf_collection in Hrow.
      unfold rowKey in E. simpl in E. rewrite Hrow in E.
      rewrite (getPack_unique g p Hkeys Hp) in E.
      destruct Hkept as [-> | M]; congruence. }
    rewrite E. reflexivity.
  - intros x. destruct (isRowToHide H g query x); reflexivity.
Qed.

Lemma row_of_kept_pack_is_shown_and_bound_once_witness :
  find (isRowOf (bestiary "p1"))
       (containerPass exampleHost privateGame
          (directoryOf exampleHost privateGame 2) "best" threeRows)
  = Some {| Row.collection := Some "p1";
            Row.display := "list-item";
            Row.bound := 2 |}.
Proof.
  apply (row_of_kept_pack_is_shown_and_bound_once
           exampleHost privateGame (directoryOf exampleHost privateGame 2)
           "best" threeRows (bestiary "p1")
           {| Row.collection := Some "p1"; Row.display := "none"; Row.bound := 0 |}).
  - simpl. repeat constructor; simpl; intuition discriminate.
  - simpl. auto.
  - right. reflexivity.
  - right. reflexivity.
  - reflexivity.
Defined.

(** ** Reconciling again *)

Lemma hideRest_hideIf (H : Host) (g : Game) (query : string) (rows : list Row.t) :
  hideRest H g query rows = map (hideIf (toHide H g query)) rows.
Proof.
  unfold hideRest, hideIf, toHide.
  destruct (0 <? String.length query)%nat; simpl; [reflexivity |].
  symmetry. apply map_id.
Qed.

Lemma hideIf_collection (hide : option string -> bool) (r : Row.t) :
  Row.collection (hideIf hide r) = Row.collection r.
Proof. unfold hideIf. destruct (hide _); reflexivity. Qed.

Lemma shown_if_collection (d : Directory) (s : bool) (r : Row.t) :
  Row.collection (if s then showRow d r else r) = Row.collection r.
Proof. destruct s; reflexivity. Qed.

(** What a pass does to a row, done again to the result, looks the same. *)
Lemma row_twice_sameLook (d : Directory) (hide : option string -> bool)
    (s : bool) (r : Row.t) :
  sameLook
    (hideIf hide (if s then showRow d r else r))
    (hideIf hide
       (if s then showRow d (hideIf hide (if s then showRow d r else r))
        else hideIf hide (if s then showRow d r else r))).
Proof.
  unfold sameLook, hideIf.
  destruct s; simpl; destruct (hide (Row.collection r)) eqn:E; simpl;
    rewrite ?E; simpl; auto.
Qed.

Lemma pass_twice_sameLook (g : Game) (d : Directory) (ps : list Pack.t)
    (hide : option string -> bool) (rows : list Row.t) :
  forall seen,
    Forall2 sameLook
      (map (hideIf hide) (showFirstRows g d ps seen rows))
      (map (hideIf hide)
         (showFirstRows g d ps seen
            (map (hideIf hide) (showFirstRows g d ps seen rows)))).
Proof.
  induction rows as [| r rows IH]; intros seen; cbn [showFirstRows map];
    [constructor |].
  destruct (Row.collection r) as [c |] eqn:Hc; cbn [showFirstRows map].
  - rewrite hideIf_collection, shown_if_collection, Hc. cbn [map].
    constructor; [apply row_twice_sameLook | apply IH].
  - rewrite hideIf_collection, Hc. cbn [map].
    constructor; [| apply IH].
    apply (row_twice_sameLook d hide false r).
Qed.

Lemma renderMatches_twice (H : Host) (template : MatchLi.t)
    (ms : list SearchResult.t) (tl : TypeList.t) :
  renderMatches H template ms (renderMatches H template ms tl)
  = renderMatches H template ms tl.
Proof.
  unfold renderMatches, typedMatches. simpl.
  destruct (TypeList.documentMatches tl); reflexivity.
Qed.

Lemma _onSearchFilter_template (H : Host) (g : Game) (d : Directory)
    (page : Page) (query : string) :
  matchTemplate (fst (_onSearchFilter H g d page query)) = matchTemplate page.
Proof.
  unfold _onSearchFilter. destruct (docMatches H g d query); [reflexivity |].
  simpl. destruct (matchTemplate page) eqn:T; simpl; congruence.
Qed.

Lemma _onSearchFilter_outcome (H : Host) (g : Game) (d : Directory)
    (page : Page) (query : string) :
  snd (_onSearchFilter H g d page query)
  = match docMatches H g d query, matchTemplate page with
    | _ :: _, None => Some MatchTemplateNotFound
    | _, _ => None
    end.
Proof.
  unfold _onSearchFilter. destruct (docMatches H g d query); [reflexivity |].
  simpl. destruct (matchTemplate page); reflexivity.
Qed.

Lemma _onSearchFilter_typeLists (H : Host) (g : Game) (d : Directory)
    (page : Page) (query : string) :
  typeLists (fst (_onSearchFilter H g d page query))
  = match docMatches H g d query, matchTemplate page with
    | m :: ms, Some template =>
        map (renderMatches H template (m :: ms)) (typeLists page)
    | _, _ => typeLists page
    end.
Proof.
  unfold _onSearchFilter. destruct (docMatches H g d query); [reflexivity |].
  simpl. destruct (matchTemplate page); reflexivity.
Qed.

(** X5. Reconciling a second time with the same query changes nothing one
    can see: the outcome is the same, the match lists are the same, and
    every row keeps its collection id and its display. *)
Theorem reconciling_twice_looks_the_same
    (H : Host) (g : Game) (d : Directory) (page : Page) (query : string) :
  NoDup (map Pack.collection (packs g)) ->
  snd (_onSearchFilter H g d (fst (_onSearchFilter H g d page query)) query)
  = snd (_onSearchFilter H g d page query)
  /\ typeLists (fst (_onSearchFilter H g d
                       (fst (_onSearchFilter H g d page query)) query))
     = typeLists (fst (_onSearchFilter H g d page query))
  /\ Forall2 sameLook
       (packRows (fst (_onSearchFilter H g d page query)))
       (packRows (fst (_onSearchFilter H g d
                         (fst (_onSearchFilter H g d page query)) query))).
Proof.
  intros Hkeys. split; [| split].
  - now rewrite !_onSearchFilter_outcome, _onSearchFilter_template.
  - rewrite _onSearchFilter_typeLists, _onSearchFilter_template.
    rewrite (_onSearchFilter_typeLists H g d page query).
    destruct (docMatches H g d query) as [| m ms]; [reflexivity |].
    destruct (matchTemplate page) as [template |]; [| reflexivity].
    rewrite map_map. apply map_ext. intros tl. apply renderMatches_twice.
  - rewrite !_onSearchFilter_rows. unfold containerPass.
    pose proof (filteredPacks_keys H g query Hkeys) as Hfk.
    rewrite !fold_showPack_showFirstRows by assumption.
    rewrite !hideRest_hideIf. apply pass_twice_sameLook.
Qed.

Lemma reconciling_twice_looks_the_same_witness :
  Forall2 sameLook
    (packRows (fst (_onSearchFilter exampleHost privateGame
                      (directoryOf exampleHost privateGame 1) privatePage "gob")))
    (packRows (fst (_onSearchFilter exampleHost privateGame
                      (directoryOf exampleHost privateGame 1)
                      (fst (_onSearchFilter exampleHost privateGame
                              (directoryOf exampleHost privateGame 1)
                              privatePage "gob")) "gob"))).
Proof.
  apply (proj2 (proj2 (reconciling_twice_looks_the_same
                         exampleHost privateGame
                         (directoryOf exampleHost privateGame 1)
                         privatePage "gob"
                         ltac:(simpl; repeat constructor; simpl;
                               intuition discriminate)))).
Defined.

(** ** The match lists *)

Lemma _onSearchFilter_rendered (H : Host) (g : Game) (d : Directory)
    (page : Page) (query : string) (template : MatchLi.t) :
  matchTemplate page = Some template ->
  docMatches H g d query <> [] ->
  typeLists (fst (_onSearchFilter H g d page query))
  = map (renderMatches H template (docMatches H g d query)) (typeLists page).
Proof.
  intros Htpl Hms. rewrite _onSearchFilter_typeLists, Htpl.
  destruct (docMatches H g d query); [congruence | reflexivity].
Qed.

(** X6. When there is a document match and the match template is there,
    every type group keeps its [dataset.type]; a group with an
    [ol.document-matches] gets, in place of whatever the list held, one row
    for each match whose pack type is the type of the group, in the order of
    the search, and nothing else; a group without that list stays without. *)
Theorem match_rows_replace_the_list_of_their_group
    (H : Host) (g : Game) (d : Directory) (page : Page) (query : string)
    (template : MatchLi.t) :
  matchTemplate page = Some template ->
  docMatches H g d query <> [] ->
  Forall2
    (fun tl tl' =>
       TypeList.type tl' = TypeList.type tl
       /\ match TypeList.documentMatches tl with
          | None => TypeList.documentMatches tl' = None
          | Some _ =>
              exists lis,
                TypeList.documentMatches tl' = Some lis
                /\ lis = map (matchElement H template)
                           (typedMatches (docMatches H g d query) tl)
                /\ forall li,
                     In li lis <->
                     exists m, In m (docMatches H g d query)
                               /\ TypeList.type tl
                                  = Some (Metadata.type (SearchResult.metadata m))
                               /\ li = matchElement H template m
          end)
    (typeLists page)
    (typeLists (fst (_onSearchFilter H g d page query))).
Proof.
  intros Htpl Hms.
  rewrite (_onSearchFilter_rendered H g d page query template Htpl Hms).
  generalize (docMatches H g d query) as all. intros all.
  induction (typeLists page) as [| tl tls IH]; cbn [map]; constructor; [| exact IH].
  split; [reflexivity |]. unfold renderMatches. cbn [TypeList.documentMatches].
  destruct (TypeList.documentMatches tl); [| reflexivity].
  eexists. split; [reflexivity |]. split; [reflexivity |].
  intros li. rewrite in_map_iff. unfold typedMatches. split.
  - intros [m [Hli Hm]]. apply filter_In in Hm. destruct Hm as [Hin Htype].
    exists m. split; [assumption |]. split; [| congruence].
    unfold strictEq in Htype. destruct (TypeList.type tl); [| discriminate].
    apply String.eqb_eq in Htype. congruence.
  - intros [m [Hin [Htype Hli]]]. exists m. split; [congruence |].
    apply filter_In. split; [assumption |].
    rewrite Htype. simpl. apply String.eqb_refl.
Qed.

Lemma match_rows_replace_the_list_of_their_group_witness :
  Forall2
    (fun tl tl' =>
       TypeList.type tl' = TypeList.type tl
       /\ match TypeList.documentMatches tl with
          | None => TypeList.documentMatches tl' = None
          | Some _ =>
              exists lis,
                TypeList.documentMatches tl' = Some lis
                /\ lis = map (matchElement exampleHost exampleTemplate)
                           (typedMatches
                              (docMatches exampleHost privateGame
                                 (directoryOf exampleHost privateGame 1) "gob") tl)
                /\ forall li,
                     In li lis <->
                     exists m, In m (docMatches exampleHost privateGame
                                       (directoryOf exampleHost privateGame 1) "gob")
                               /\ TypeList.type tl
                                  = Some (Metadata.type (SearchResult.metadata m))
                               /\ li = matchElement exampleHost exampleTemplate m
          end)
    (typeLists privatePage)
    (typeLists (fst (_onSearchFilter exampleHost privateGame
                       (directoryOf exampleHost privateGame 1) privatePage "gob"))).
Proof.
  apply (match_rows_replace_the_list_of_their_group
           exampleHost privateGame (directoryOf exampleHost privateGame 1)
           privatePage "gob" exampleTemplate).
  - reflexivity.
  - vm_compute. discriminate.
Defined.

(** X7. A query without document match leaves the match lists alone: the
    rows rendered for an earlier query that had matches stay in their
    groups. *)
Theorem matches_of_earlier_query_stay_without_new_match
    (H : Host) (g : Game) (d : Directory) (page : Page)
    (earlier later : string) (template : MatchLi.t) :
  matchTemplate page = Some template ->
  docMatches H g d earlier <> [] ->
  docMatches H g d later = [] ->
  typeLists (fst (_onSearchFilter H g d
                    (fst (_onSearchFilter H g d page earlier)) later))
  = map (renderMatches H template (docMatches H g d earlier)) (typeLists page)
  /\ snd (_onSearchFilter H g d
            (fst (_onSearchFilter H g d page earlier)) later) = None.
Proof.
  intros Htpl Hearlier Hlater.
  rewrite _onSearchFilter_outcome, _onSearchFilter_typeLists, Hlater.
  split; [| reflexivity].
  now apply _onSearchFilter_rendered.
Qed.

Lemma matches_of_earlier_query_stay_without_new_match_witness :
  typeLists (fst (_onSearchFilter exampleHost privateGame
                    (directoryOf exampleHost privateGame 1)
                    (fst (_onSearchFilter exampleHost privateGame
                            (directoryOf exampleHost privateGame 1)
                            privatePage "gob")) "zz"))
  = map (renderMatches exampleHost exampleTemplate
           (docMatches exampleHost privateGame
              (directoryOf exampleHost privateGame 1) "gob"))
        (typeLists privatePage)
  /\ snd (_onSearchFilter exampleHost privateGame
            (directoryOf exampleHost privateGame 1)
            (fst (_onSearchFilter exampleHost privateGame
                    (directoryOf exampleHost privateGame 1)
                    privatePage "gob")) "zz") = None.
Proof.
  apply (matches_of_earlier_query_stay_without_new_match
           exampleHost privateGame (directoryOf exampleHost privateGame 1)
           privatePage "gob" "zz" exampleTemplate).
  - reflexivity.
  - vm_compute. discriminate.
  - reflexivity.
Defined.

(** ** Drags that fail, and the preview *)

Lemma truthy_nonempty (s : string) : s <> "" -> truthy (Some s) = true.
Proof. intros Hne. simpl. apply negb_true_iff. now apply String.eqb_neq. Qed.

(** X8. A drag whose pack or whose entry cannot be resolved throws the
    error of the strict lookup and has changed nothing by then: the page,
    with the preview an earlier drag may have left, and the transfer are as
    they were. Any error of the handler is of this kind. *)
Theorem unresolved_drag_throws_and_changes_nothing
    (g : Game) (page : Page) (event : DragEvent.t) :
  (forall C D,
     DragEvent.collection event = Some C ->
     DragEvent.documentId event = Some D ->
     C <> "" -> D <> "" ->
     getPack g C = None ->
     _onDragStart g page event
     = (page, DragEvent.dataTransfer event, Some (StrictLookupFailed C)))
  /\ (forall C D pack,
        DragEvent.collection event = Some C ->
        DragEvent.documentId event = Some D ->
        C <> "" -> D <> "" ->
        getPack g C = Some pack ->
        getEntry pack D = None ->
        _onDragStart g page event
        = (page, DragEvent.dataTransfer event, Some (StrictLookupFailed D)))
  /\ (forall e,
        snd (_onDragStart g page event) = Some e ->
        fst (_onDragStart g page event) = (page, DragEvent.dataTransfer event)
        /\ exists C D,
             DragEvent.collection event = Some C
             /\ DragEvent.documentId event = Some D
             /\ ((getPack g C = None /\ e = StrictLookupFailed C)
                 \/ exists pack, getPack g C = Some pack
                                 /\ getEntry pack D = None
                                 /\ e = StrictLookupFailed D)).
Proof.
  split; [| split].
  - intros C D HC HD HCne HDne Hpack. unfold _onDragStart.
    rewrite HC, HD, !truthy_nonempty by assumption. simpl. now rewrite Hpack.
  - intros C D pack HC HD HCne HDne Hpack Hentry. unfold _onDragStart.
    rewrite HC, HD, !truthy_nonempty by assumption. simpl.
    now rewrite Hpack, Hentry.
  - intros e. unfold _onDragStart.
    destruct (negb (truthy (DragEvent.collection event)
                    && truthy (DragEvent.documentId event))); [discriminate |].
    destruct (DragEvent.collection event) as [C |]; [| discriminate].
    destruct (DragEvent.documentId event) as [D |]; [| discriminate].
    destruct (getPack g C) as [pack |] eqn:Hpack.
    + destruct (getEntry pack D) eqn:Hentry; simpl; [discriminate |].
      intros He. inversion He. split; [reflexivity |].
      exists C, D. repeat split. right. exists pack. auto.
    + simpl. intros He. inversion He. split; [reflexivity |].
      exists C, D. auto.
Qed.

Lemma unresolved_drag_throws_and_changes_nothing_witness :
  _onDragStart (exampleGame "world.bestiary" false) pageWithPreview
    {| DragEvent.collection := Some "world.bestiary";
       DragEvent.documentId := Some "e9";
       DragEvent.dataTransfer := emptyTransfer |}
  = (pageWithPreview, emptyTransfer, Some (StrictLookupFailed "e9")).
Proof.
  apply (proj1 (proj2 (unresolved_drag_throws_and_changes_nothing
                         (exampleGame "world.bestiary" false) pageWithPreview
                         {| DragEvent.collection := Some "world.bestiary";
                            DragEvent.documentId := Some "e9";
                            DragEvent.dataTransfer := emptyTransfer |}))
           "world.bestiary" "e9" (bestiary "world.bestiary")).
  - reflexivity.
  - reflexivity.
  - discriminate.
  - discriminate.
  - reflexivity.
  - reflexivity.
Defined.

(** X9. A drag that resolves its entry removes the first preview left in
    the document and appends a new one: its title is the name of the entry,
    its image is the image of the entry when there is one and has no source
    otherwise, and it is the drag image, at the offsets 75 and 25. The rows,
    the groups and the template are as they were. *)
Theorem resolved_drag_renews_the_preview
    (g : Game) (page : Page) (event : DragEvent.t)
    (C D : string) (pack : Pack.t) (entry : IndexEntry.t) :
  DragEvent.collection event = Some C ->
  DragEvent.documentId event = Some D ->
  C <> "" ->
  D <> "" ->
  getPack g C = Some pack ->
  getEntry pack D = Some entry ->
  exists preview,
    dragPreviews (fst (fst (_onDragStart g page event)))
    = (List.tl (dragPreviews page) ++ [preview])%list
    /\ Preview.titleText preview = IndexEntry.name entry
    /\ Preview.thumbnailSrc preview
       = (if truthy (IndexEntry.img entry) then IndexEntry.img entry else None)
    /\ DataTransfer.dragImage (snd (fst (_onDragStart g page event)))
       = Some (preview, 75, 25)
    /\ packRows (fst (fst (_onDragStart g page event))) = packRows page
    /\ typeLists (fst (fst (_onDragStart g page event))) = typeLists page
    /\ matchTemplate (fst (fst (_onDragStart g page event))) = matchTemplate page.
Proof.
  intros HC HD HCne HDne Hpack Hentry. unfold _onDragStart.
  rewrite HC, HD, !truthy_nonempty by assumption. simpl.
  rewrite Hpack, Hentry. simpl.
  eexists. repeat split; reflexivity.
Qed.

Lemma resolved_drag_renews_the_preview_witness :
  exists preview,
    dragPreviews (fst (fst (_onDragStart (exampleGame "world.bestiary" false)
                              pageWithPreview exampleDrag)))
    = (List.tl (dragPreviews pageWithPreview) ++ [preview])%list
    /\ Preview.titleText preview = "Goblin Warrior"
    /\ Preview.thumbnailSrc preview = None
    /\ DataTransfer.dragImage
         (snd (fst (_onDragStart (exampleGame "world.bestiary" false)
                      pageWithPreview exampleDrag)))
       = Some (preview, 75, 25)
    /\ packRows (fst (fst (_onDragStart (exampleGame "world.bestiary" false)
                            pageWithPreview exampleDrag)))
       = packRows pageWithPreview
    /\ typeLists (fst (fst (_onDragStart (exampleGame "world.bestiary" false)
                             pageWithPreview exampleDrag)))
       = typeLists pageWithPreview
    /\ matchTemplate (fst (fst (_onDragStart (exampleGame "world.bestiary" false)
                                 pageWithPreview exampleDrag)))
       = matchTemplate pageWithPreview.
Proof.
  apply (resolved_drag_renews_the_preview
           (exampleGame "world.bestiary" false) pageWithPreview exampleDrag
           "world.bestiary" "e1" (bestiary "world.bestiary")
           {| IndexEntry._id := "e1"; IndexEntry.name := "Goblin Warrior";
              IndexEntry.img := None; IndexEntry.type := "npc" |}).
  - reflexivity.
  - reflexivity.
  - discriminate.
  - discriminate.
  - reflexivity.
  - reflexivity.
Defined.

(** X10. The document never holds more than one drag preview: if it holds
    at most one when a drag starts, it holds at most one afterwards,
    whatever the drag is and however it ends. *)
Theorem at_most_one_drag_preview
    (g : Game) (page : Page) (event : DragEvent.t) :
  List.length (dragPreviews page) <= 1 ->
  List.length (dragPreviews (fst (fst (_onDragStart g page event)))) <= 1.
Proof.
  intros Hone. unfold _onDragStart.
  destruct (negb (truthy (DragEvent.collection event)
                  && truthy (DragEvent.documentId event))); [exact Hone |].
  destruct (DragEvent.collection event) as [C |]; [| exact Hone].
  destruct (DragEvent.documentId event) as [D |]; [| exact Hone].
  destruct (getPack g C) as [pack |]; [| exact Hone].
  destruct (getEntry pack D); [| exact Hone].
  simpl. rewrite length_app. simpl.
  destruct (dragPreviews page) as [| p ps]; simpl in *; lia.
Qed.

Lemma at_most_one_drag_preview_witness :
  List.length
    (dragPreviews (fst (fst (_onDragStart (exampleGame "world.bestiary" false)
                              pageWithPreview exampleDrag)))) <= 1.
Proof.
  apply (at_most_one_drag_preview
           (exampleGame "world.bestiary" false) pageWithPreview exampleDrag).
  simpl. lia.
Defined.

(** ** From an entry to its match row *)

Lemma docMatches_In (H : Host) (g : Game) (d : Directory) (query : string)
    (m : SearchResult.t) :
  In m (docMatches H g d query) -> In m (searchDocuments H g d query).
Proof.
  unfold docMatches. destruct (0 <? String.length query)%nat; [auto | contradiction].
Qed.

(** X11. Every match row that a reconciliation renders names an entry of
    the index: its uuid is "Compendium.", the metadata id of a pack of
    [game.packs] that is eligible, ".", the id of an entry of that pack; the
    click on it opens that uuid, its text is the name of the entry, and it
    sits in the group of the type of that pack. *)
Theorem rendered_match_row_names_an_indexed_entry
    (H : Host) (g : Game) (n : nat) (d : Directory) (page : Page)
    (query : string) (template : MatchLi.t)
    (tl' : TypeList.t) (lis : list MatchLi.t) (li : MatchLi.t) :
  construct H g n = inr d ->
  matchTemplate page = Some template ->
  docMatches H g d query <> [] ->
  In tl' (typeLists (fst (_onSearchFilter H g d page query))) ->
  TypeList.documentMatches tl' = Some lis ->
  In li lis ->
  exists p i,
    In p (packs g)
    /\ Pack.documentName p <> "JournalEntry"
    /\ (isGM g = true \/ Pack.private p = false)
    /\ In i (Pack.index p)
    /\ MatchLi.uuid li
       = Some ("Compendium." ++ Metadata.id (Pack.metadata p)
               ++ "." ++ IndexEntry._id i)
    /\ MatchLi.opens li = MatchLi.uuid li
    /\ MatchLi.anchorText li = IndexEntry.name i
    /\ TypeList.type tl' = Some (Metadata.type (Pack.metadata p)).
Proof.
  intros Hd Htpl Hms Htl Hlis Hli.
  rewrite (_onSearchFilter_rendered H g d page query template Htpl Hms) in Htl.
  apply in_map_iff in Htl. destruct Htl as [tl [<- _]].
  unfold renderMatches in Hlis. cbn [TypeList.documentMatches] in Hlis.
  destruct (TypeList.documentMatches tl); [| discriminate].
  inversion Hlis; subst lis. clear Hlis.
  apply in_map_iff in Hli. destruct Hli as [m [<- Hm]].
  unfold typedMatches in Hm. apply filter_In in Hm. destruct Hm as [Hm Htype].
  apply docMatches_In in Hm.
  destruct (searchDocuments_In H g n d query m Hd Hm)
    as [_ [r [Hr [Hid [Hname [Hmeta _]]]]]].
  apply extracted_In in Hr. destruct Hr as [p [i [Hp [He [Hi ->]]]]].
  simpl in Hid, Hname, Hmeta. apply eligible_iff in He.
  exists p, i. cbn [renderMatches TypeList.type MatchLi.uuid MatchLi.opens
                    MatchLi.anchorText matchElement].
  unfold matchUUID. rewrite Hid, Hname, Hmeta.
  repeat split; try tauto.
  unfold strictEq in Htype. destruct (TypeList.type tl); [| discriminate].
  apply String.eqb_eq in Htype. congruence.
Qed.

Lemma rendered_match_row_names_an_indexed_entry_witness :
  exists p i,
    In p (packs (exampleGame "p1" false))
    /\ Pack.documentName p <> "JournalEntry"
    /\ (isGM (exampleGame "p1" false) = true \/ Pack.private p = false)
    /\ In i (Pack.index p)
    /\ MatchLi.uuid (matchElement exampleHost exampleTemplate
                       (scenarioMatch exampleHost))
       = Some ("Compendium." ++ Metadata.id (Pack.metadata p)
               ++ "." ++ IndexEntry._id i)
    /\ MatchLi.opens (matchElement exampleHost exampleTemplate
                        (scenarioMatch exampleHost))
       = MatchLi.uuid (matchElement exampleHost exampleTemplate
                         (scenarioMatch exampleHost))
    /\ MatchLi.anchorText (matchElement exampleHost exampleTemplate
                             (scenarioMatch exampleHost))
       = IndexEntry.name i
    /\ TypeList.type
         {| TypeList.type := Some "Actor";
            TypeList.documentMatches :=
              Some [matchElement exampleHost exampleTemplate
                      (scenarioMatch exampleHost)] |}
       = Some (Metadata.type (Pack.metadata p)).
Proof.
  apply (rendered_match_row_names_an_indexed_entry
           exampleHost (exampleGame "p1" false) 1 (scenarioDirectory 1)
           (examplePage "p1" "list-item" (Some exampleTemplate)) "gob"
           exampleTemplate
           {| TypeList.type := Some "Actor";
              TypeList.documentMatches :=
                Some [matchElement exampleHost exampleTemplate
                        (scenarioMatch exampleHost)] |}
           [matchElement exampleHost exampleTemplate (scenarioMatch exampleHost)]
           (matchElement exampleHost exampleTemplate (scenarioMatch exampleHost))).
  - reflexivity.
  - reflexivity.
  - vm_compute. discriminate.
  - vm_compute. left. reflexivity.
  - reflexivity.
  - left. reflexivity.
Defined.

(** ** Importing a match *)

(** X12. The import callback does nothing, and throws nothing, when the
    row lacks the collection id or the document id. Otherwise it asks the
    world collection of the pack's document type to import that document
    from the pack found under the collection id, with the sheet rendered;
    it throws exactly when that pack or that world collection is missing. *)
Theorem import_callback_requests_or_throws
    (g : Game) (worlds : list string) (collection documentId : option string) :
  (truthy collection = false \/ truthy documentId = false ->
   importCallback g worlds collection documentId = inr None)
  /\ (forall C D,
        collection = Some C -> documentId = Some D -> C <> "" -> D <> "" ->
        match getPack g C with
        | None =>
            importCallback g worlds collection documentId
            = inl (StrictLookupFailed C)
        | Some pack =>
            Pack.collection pack = C
            /\ if existsb (String.eqb (Pack.documentName pack)) worlds
               then importCallback g worlds collection documentId
                    = inr (Some {| ImportRequest.world := Pack.documentName pack;
                                   ImportRequest.pack := pack;
                                   ImportRequest.documentId := D;
                                   ImportRequest.renderSheet := true |})
               else importCallback g worlds collection documentId
                    = inl (StrictLookupFailed (Pack.documentName pack))
        end).
Proof.
  split.
  - intros Hlack. unfold importCallback.
    assert (E : truthy collection && truthy documentId = false).
    { destruct Hlack as [-> | ->]; [reflexivity | apply andb_false_r]. }
    now rewrite E.
  - intros C D -> -> HC HD. unfold importCallback.
    rewrite !truthy_nonempty by assumption. simpl.
    destruct (getPack g C) as [pack |] eqn:Hpack; [| reflexivity].
    split; [apply (getPack_collection g C pack Hpack) |].
    unfold getWorldCollection.
    destruct (find (fun w => w =? Pack.documentName pack) worlds) as [w |] eqn:W.
    + apply find_some in W. destruct W as [Hin Heq].
      apply String.eqb_eq in Heq. subst w.
      assert (E : existsb (String.eqb (Pack.documentName pack)) worlds = true).
      { apply existsb_exists. eexists. split; [exact Hin | apply String.eqb_refl]. }
      now rewrite E.
    + destruct (existsb (String.eqb (Pack.documentName pack)) worlds) eqn:E;
        [| reflexivity].
      exfalso. apply existsb_exists in E. destruct E as [w [Hin Heq]].
      pose proof (find_none _ _ W w Hin) as Hno. simpl in Hno.
      rewrite String.eqb_sym in Hno. congruence.
Qed.

Lemma import_callback_requests_or_throws_witness :
  importCallback (exampleGame "p1" false) ["Actor"; "Item"] None (Some "e1")
  = inr None.
Proof.
  apply (proj1 (import_callback_requests_or_throws
                  (exampleGame "p1" false) ["Actor"; "Item"] None (Some "e1"))).
  left. reflexivity.
Defined.

(** X13. The condition of the import entry has no guard of its own: it
    throws whenever no pack is found under the collection id of the row,
    and a row without a collection id is looked up under the empty key. When
    the pack is found, the answer is that of its document class. *)
Theorem import_condition_throws_without_pack
    (g : Game) (canUserCreate : Pack.t -> bool) (collection : option string) :
  (getPack g (match collection with Some c => c | None => "" end) = None ->
   importCondition g canUserCreate collection
   = inl (StrictLookupFailed (match collection with Some c => c | None => "" end)))
  /\ (forall pack,
        getPack g (match collection with Some c => c | None => "" end) = Some pack ->
        importCondition g canUserCreate collection = inr (canUserCreate pack))
  /\ ((forall p, In p (packs g) -> Pack.collection p <> "") ->
      importCondition g canUserCreate None = inl (StrictLookupFailed "")).
Proof.
  unfold importCondition. split; [| split].
  - intros Hnone. now rewrite Hnone.
  - intros pack Hpack. now rewrite Hpack.
  - intros Hkeys. destruct (getPack g "") as [p |] eqn:E; [| reflexivity].
    exfalso. apply getPack_collection in E. destruct E as [Hin Hkey].
    exact (Hkeys p Hin Hkey).
Qed.

Lemma import_condition_throws_without_pack_witness :
  importCondition (exampleGame "p1" false) (fun _ => true) None
  = inl (StrictLookupFailed "").
Proof.
  apply (proj2 (proj2 (import_condition_throws_without_pack
                         (exampleGame "p1" false) (fun _ => true) None))).
  intros p [<- | []]. discriminate.
Defined.

(** ** What the search never finds *)

(** X14. The entries of a journal pack are never found, for a GM as for
    any other viewer: no match of the search carries the metadata of a
    pack whose document type is "JournalEntry". *)
Theorem journal_entries_are_never_found
    (H : Host) (g : Game) (n : nat) (d : Directory) (query : string) (p : Pack.t) :
  construct H g n = inr d ->
  In p (packs g) ->
  Pack.documentName p = "JournalEntry" ->
  NoDup (map (fun q => Metadata.id (Pack.metadata q)) (packs g)) ->
  forall m, In m (searchDocuments H g d query) ->
            Metadata.id (SearchResult.metadata m) <> Metadata.id (Pack.metadata p).
Proof.
  intros Hd Hp Hjournal Hmeta m Hm Heq.
  destruct (searchDocuments_In H g n d query m Hd Hm)
    as [_ [r [Hr [_ [_ [Hmd _]]]]]].
  apply extracted_In in Hr. destruct Hr as [q [i [Hq [He [_ ->]]]]].
  simpl in Hmd. rewrite Hmd in Heq.
  assert (q = p).
  { eapply (NoDup_map_inj (fun q => Metadata.id (Pack.metadata q))); eauto. }
  subst q. apply eligible_iff in He. tauto.
Qed.

Lemma journal_entries_are_never_found_witness :
  searchDocuments exampleHost journalGame
    (directoryOf exampleHost journalGame 1) "goblin" <> []
  /\ forall m, In m (searchDocuments exampleHost journalGame
                       (directoryOf exampleHost journalGame 1) "goblin") ->
               Metadata.id (SearchResult.metadata m)
               <> Metadata.id (Pack.metadata journal).
Proof.
  split; [vm_compute; discriminate |].
  apply (journal_entries_are_never_found
           exampleHost journalGame 1 (directoryOf exampleHost journalGame 1)
           "goblin" journal).
  - reflexivity.
  - simpl. auto.
  - reflexivity.
  - simpl. repeat constructor; simpl; intuition discriminate.
Defined.

(** X15. A query whose terms all have a [length] under two, in UTF-16 code
    units, finds no document: [processTerm] drops every term, so
    reconciliation renders no match and throws nothing, with or without a
    match template. *)
Theorem query_of_short_terms_finds_nothing
    (H : Host) (g : Game) (d : Directory) (page : Page) (query : string) :
  (forall w, In w (tokenize H query) -> jsLength w < 2) ->
  docMatches H g d query = []
  /\ snd (_onSearchFilter H g d page query) = None
  /\ typeLists (fst (_onSearchFilter H g d page query)) = typeLists page.
Proof.
  intros Hshort.
  assert (Hnone : docMatches H g d query = []).
  { unfold docMatches. destruct (0 <? String.length query)%nat; [| reflexivity].
    unfold searchDocuments, MiniSearch.search.
    rewrite termsOf_filter.
    assert (E : filter (fun w => (1 <? jsLength w)%nat) (tokenize H query) = []).
    { induction (tokenize H query) as [| w ws IH]; simpl; [reflexivity |].
      destruct (Nat.ltb_spec 1 (jsLength w)) as [Hlong | _].
      - specialize (Hshort w (or_introl eq_refl)). lia.
      - apply IH. intros w' Hw'. apply Hshort. now right. }
    now rewrite E. }
  rewrite _onSearchFilter_outcome, _onSearchFilter_typeLists, Hnone. auto.
Qed.

Lemma query_of_short_terms_finds_nothing_witness :
  docMatches exampleHost (exampleGame "p1" false) (scenarioDirectory 1)
    (lWithStroke ++ " g") = []
  /\ snd (_onSearchFilter exampleHost (exampleGame "p1" false) (scenarioDirectory 1)
            (examplePage "p1" "none" None) (lWithStroke ++ " g")) = None
  /\ typeLists (fst (_onSearchFilter exampleHost (exampleGame "p1" false)
                       (scenarioDirectory 1) (examplePage "p1" "none" None)
                       (lWithStroke ++ " g")))
     = typeLists (examplePage "p1" "none" None).
Proof.
  apply (query_of_short_terms_finds_nothing
           exampleHost (exampleGame "p1" false) (scenarioDirectory 1)
           (examplePage "p1" "none" None) (lWithStroke ++ " g")).
  intros w Hw. vm_compute in Hw.
  destruct Hw as [<- | [<- | []]]; vm_compute; lia.
Defined.

(** ** What the search finds *)

(** X16. The search finds every entry of an eligible pack whose name has
    all the terms of the query: when the query keeps at least one term and
    each term it keeps is a prefix of a case-folded token of the name whose
    [length] is two or more, in UTF-16 code units, a match with the id and the name of the entry and
    the metadata of its pack is returned. For a GM this holds for the
    entries of private packs as well. *)
Theorem entry_with_all_terms_is_found
    (H : Host) (g : Game) (n : nat) (d : Directory) (query : string)
    (p : Pack.t) (i : IndexEntry.t) :
  construct H g n = inr d ->
  In p (packs g) ->
  Pack.documentName p <> "JournalEntry" ->
  isGM g = true \/ Pack.private p = false ->
  In i (Pack.index p) ->
  MiniSearch.termsOf H (engineOptions H g) query <> [] ->
  (forall t, In t (MiniSearch.termsOf H (engineOptions H g) query) ->
             exists w, In w (tokenize H (IndexEntry.name i))
                       /\ 2 <= jsLength w
                       /\ String.prefix t (toLocaleLowerCase H (lang g) w) = true) ->
  exists m, In m (searchDocuments H g d query)
            /\ SearchResult.id m = IndexEntry._id i
            /\ SearchResult.name m = IndexEntry.name i
            /\ SearchResult.img m = IndexEntry.img i
            /\ SearchResult.type m = IndexEntry.type i
            /\ SearchResult.metadata m = Pack.metadata p.
Proof.
  intros Hd Hp Hdoc Hperm Hi Hterms Hall.
  apply construct_inr in Hd. destruct Hd as [Hix _].
  set (o := engineOptions H g).
  exists (MiniSearch.toResult H (searchEngine d) (MiniSearch.termsOf H o query)
            (MiniSearch.posting H o (withMetadata p i))).
  split; [| simpl; auto 6].
  unfold searchDocuments. apply search_In. split; [exact Hterms |].
  exists (MiniSearch.posting H o (withMetadata p i)).
  split; [| split; [| reflexivity]].
  - rewrite Hix. apply in_map. apply extracted_In. exists p, i.
    repeat split; try assumption. apply eligible_iff.
    split; [| tauto]. intros Hempty. rewrite Hempty in Hi. contradiction.
  - unfold MiniSearch.matches. simpl. apply forallb_forall. intros t Ht.
    unfold MiniSearch.termMatches. simpl. apply existsb_exists.
    destruct (Hall t Ht) as [w [Hw [Hlen Hpre]]].
    exists (toLocaleLowerCase H (lang g) w). split; [| exact Hpre].
    apply termsOf_In. exists w. auto.
Qed.

Lemma entry_with_all_terms_is_found_witness :
  exists m, In m (searchDocuments exampleHost (exampleGame "p1" false)
                    (scenarioDirectory 1) "war gob")
            /\ SearchResult.id m = "e1"
            /\ SearchResult.name m = "Goblin Warrior"
            /\ SearchResult.img m = None
            /\ SearchResult.type m = "npc"
            /\ SearchResult.metadata m = Pack.metadata (bestiary "p1").
Proof.
  apply (entry_with_all_terms_is_found
           exampleHost (exampleGame "p1" false) 1 (scenarioDirectory 1) "war gob"
           (bestiary "p1")
           {| IndexEntry._id := "e1"; IndexEntry.name := "Goblin Warrior";
              IndexEntry.img := None; IndexEntry.type := "npc" |}).
  - reflexivity.
  - simpl. auto.
  - discriminate.
  - right. reflexivity.
  - simpl. auto.
  - vm_compute. discriminate.
  - intros t Ht. vm_compute in Ht. destruct Ht as [<- | [<- | []]].
    + exists "Warrior". split; [vm_compute; auto |]. split; [simpl; lia | reflexivity].
    + exists "Goblin". split; [vm_compute; auto |]. split; [simpl; lia | reflexivity].
Defined.
